(** * Attention and compliance engine of the co-creation writing study

    A shallow embedding of the React hooks that monitor a participant:

    - [useWritingAttention] (two versions in the repository: the one that
      tracks the nudge counter in a ref, and the earlier one that reads the
      counter from the render the effect closed over);
    - [useComplianceGuard] (fullscreen / focus / visibility guard);
    - [useAttentionGuard] (the earlier guard used by [FullscreenGuard]).

    JavaScript numbers are idealised as real numbers: [performance.now()],
    the thresholds and the score are in [R], [Math.exp] and [Math.log] are
    [exp] and [ln].  Counters that start at [0] and are only incremented by
    one are in [nat].  A hook instance is a record holding its [useState]
    cells, its [useRef] cells and, for the effect whose dependency list is
    [[enabled]], the render values that the effect closed over. *)

From Stdlib Require Import Reals Lra Lia List Bool Arith.
Import ListNotations.

Local Open Scope R_scope.

(** ** Comparisons of JavaScript numbers *)

Definition Rltb (a b : R) : bool := if Rlt_dec a b then true else false.
Definition Rgtb (a b : R) : bool := Rltb b a.

(** ** The attention scorer *)

Module Attention.

(** [AttnOpts], after the defaults have been filled in. *)
Record AttnOpts := mkOpts {
  graceMs : R;
  halfLifeMs : R;
  nudgeThreshold : R;
  finalThreshold : R;
  maxNudges : nat;
  minScore : R;
  nudgeCooldownMs : R
}.

(** [AttnState]: the six [useState] cells, which are also what the hook
    returns. *)
Record AttnState := mkAttn {
  score : R;
  showNudge : bool;
  showFinalWarning : bool;
  finalStrike : bool;
  nudges : nat;
  worstScore : R
}.

(** The [useRef] cells.  [nudgesRef] exists in the ref-based version only;
    the other version never touches it. *)
Record Refs := mkRefs {
  lastActRef : R;
  lastNudgeRef : R;
  nudgesRef : nat;
  armedFinalRef : bool;
  hysteresisOkRef : bool
}.

(** A mounted hook.  [render] holds the values of the state cells in the
    render whose effect is running: the effect depends on [[enabled]]
    only, so [loop] keeps reading these and not the current cells.
    [enabled] is the value of the argument at the last effect run. *)
Record Hook := mkHook {
  state : AttnState;
  refs : Refs;
  render : AttnState;
  enabled : bool
}.

Definition withState (f : AttnState -> AttnState) (h : Hook) : Hook :=
  mkHook (f (state h)) (refs h) (render h) (enabled h).

Definition withRefs (f : Refs -> Refs) (h : Hook) : Hook :=
  mkHook (state h) (f (refs h)) (render h) (enabled h).

Definition setScore (v : R) : Hook -> Hook :=
  withState (fun a => mkAttn v (showNudge a) (showFinalWarning a)
                             (finalStrike a) (nudges a) (worstScore a)).

Definition setShowNudge (v : bool) : Hook -> Hook :=
  withState (fun a => mkAttn (score a) v (showFinalWarning a)
                             (finalStrike a) (nudges a) (worstScore a)).

Definition setShowFinalWarning (v : bool) : Hook -> Hook :=
  withState (fun a => mkAttn (score a) (showNudge a) v
                             (finalStrike a) (nudges a) (worstScore a)).

Definition setFinalStrike (v : bool) : Hook -> Hook :=
  withState (fun a => mkAttn (score a) (showNudge a) (showFinalWarning a)
                             v (nudges a) (worstScore a)).

(** [setNudges] and [setWorstScore] take an updater, as [useState] setters
    do; a plain value is the constant updater. *)
Definition setNudges (f : nat -> nat) : Hook -> Hook :=
  withState (fun a => mkAttn (score a) (showNudge a) (showFinalWarning a)
                             (finalStrike a) (f (nudges a)) (worstScore a)).

Definition setWorstScore (f : R -> R) : Hook -> Hook :=
  withState (fun a => mkAttn (score a) (showNudge a) (showFinalWarning a)
                             (finalStrike a) (nudges a) (f (worstScore a))).

Definition setLastActRef (v : R) : Hook -> Hook :=
  withRefs (fun r => mkRefs v (lastNudgeRef r) (nudgesRef r)
                            (armedFinalRef r) (hysteresisOkRef r)).

Definition setLastNudgeRef (v : R) : Hook -> Hook :=
  withRefs (fun r => mkRefs (lastActRef r) v (nudgesRef r)
                            (armedFinalRef r) (hysteresisOkRef r)).

Definition setNudgesRef (v : nat) : Hook -> Hook :=
  withRefs (fun r => mkRefs (lastActRef r) (lastNudgeRef r) v
                            (armedFinalRef r) (hysteresisOkRef r)).

Definition setArmedFinalRef (v : bool) : Hook -> Hook :=
  withRefs (fun r => mkRefs (lastActRef r) (lastNudgeRef r) (nudgesRef r)
                            v (hysteresisOkRef r)).

Definition setHysteresisOkRef (v : bool) : Hook -> Hook :=
  withRefs (fun r => mkRefs (lastActRef r) (lastNudgeRef r) (nudgesRef r)
                            (armedFinalRef r) v).

(** The first render: [useState] initial values and [useRef] initial
    values; [t0] is [performance.now()] at that render. *)
Definition initialState : AttnState := mkAttn 1 false false false 0 1.

Definition initialHook (t0 : R) : Hook :=
  mkHook initialState (mkRefs t0 0 0 false true) initialState false.

(** What the hook does that a consumer can see happen: a nudge toast is
    raised at a time, the final-warning banner is raised, the strike flag
    is set. *)
Inductive signal :=
| SigNudge (now : R)
| SigFinalWarning
| SigStrike.

(** The modifier flags of a [KeyboardEvent]. *)
Record KeyboardEvent := mkKey {
  metaKey : bool;
  ctrlKey : bool;
  altKey : bool;
  shiftKey : bool
}.

(** What can happen to a mounted hook.  Handlers that read
    [performance.now()] carry the value they read. *)
Inductive event :=
| EvEnabled (b : bool)
| EvKeyDown (e : KeyboardEvent) (now : R)
| EvInput (now : R)
| EvMouseMove (now : R)
| EvMouseDown (now : R)
| EvWheel (now : R)
| EvSelectionChange (now : R)
| EvFrame (now : R)
| EvNudgeTimeout.

(** *** Code shared by the two versions *)

(** The score computed at the top of [loop] from the idle time, over the
    reals: the rounding of [Math.exp], its underflow to 0 for very long
    idle times and the division by a zero [halfLifeMs] are not modelled. *)
Definition decay (o : AttnOpts) (idle : R) : R :=
  if Rgtb idle (graceMs o) then
    let t := idle - graceMs o in
    Rmax (minScore o) (exp (- ln 2 * (t / halfLifeMs o)))
  else 1.

Definition markActive (now : R) (h : Hook) : Hook :=
  setScore 1 (setLastActRef now h).

Definition key (e : KeyboardEvent) (now : R) (h : Hook) : Hook :=
  if metaKey e || ctrlKey e || altKey e then h else markActive now h.

Definition input (now : R) (h : Hook) : Hook := markActive now h.
Definition mouse (now : R) (h : Hook) : Hook := markActive now h.
Definition wheel (now : R) (h : Hook) : Hook := markActive now h.
Definition sel (now : R) (h : Hook) : Hook := markActive now h.

(** "After last nudge, arm final warning": the body of the innermost
    [if] of the nudge block. *)
Definition armFinal (h : Hook) : Hook :=
  let h := setShowFinalWarning true h in
  let h := setArmedFinalRef true h in
  setHysteresisOkRef false h.

(** The hysteresis block of [loop]. *)
Definition hysteresis (o : AttnOpts) (s : R) (h : Hook) : Hook :=
  if armedFinalRef (refs h) && Rgtb s (finalThreshold o + 0.08)
  then setHysteresisOkRef true h
  else h.

(** The final-strike block of [loop]; [finalStrike] is the closed-over
    render value. *)
Definition strike (o : AttnOpts) (s : R) (h : Hook) : Hook * list signal :=
  if armedFinalRef (refs h) && negb (finalStrike (render h))
     && Rltb s (finalThreshold o) && hysteresisOkRef (refs h)
  then (setHysteresisOkRef false (setFinalStrike true h), [SigStrike])
  else (h, []).

(** The effect's cleanup function. *)
Definition cleanup (h : Hook) : Hook := setShowNudge false h.

(** The effect body when [enabled] holds: the closures it creates see the
    state cells of the current render. *)
Definition start (h : Hook) : Hook :=
  mkHook (state h) (refs h) (state h) true.

Definition stop (h : Hook) : Hook :=
  mkHook (state h) (refs h) (render h) false.

(** An event that is not a change of [enabled]. *)
Definition inSession (ev : event) : bool :=
  match ev with EvEnabled _ => false | _ => true end.

(** An event that is an animation frame. *)
Definition frameTime (ev : event) : option R :=
  match ev with EvFrame now => Some now | _ => None end.

(** *** A mounted hook under a sequence of events

    The two versions differ in [loop] and in the effect body; the
    dispatch of events to them is the same. *)
Record Version := mkVersion {
  loopOf : AttnOpts -> R -> Hook -> Hook * list signal;
  effectOf : bool -> Hook -> Hook
}.

(** First render, then the first run of the effect. *)
Definition mount (v : Version) (b : bool) (t0 : R) : Hook :=
  effectOf v b (initialHook t0).

(** React runs the effect again only when [enabled] has changed.
    Listeners and the frame callback exist only while the effect of an
    enabled render is installed; the nudge timer is never cancelled. *)
Definition step (v : Version) (o : AttnOpts) (ev : event) (h : Hook)
  : Hook * list signal :=
  match ev with
  | EvEnabled b => (if Bool.eqb b (enabled h) then h else effectOf v b h, [])
  | EvKeyDown e now => (if enabled h then key e now h else h, [])
  | EvInput now => (if enabled h then input now h else h, [])
  | EvMouseMove now => (if enabled h then mouse now h else h, [])
  | EvMouseDown now => (if enabled h then mouse now h else h, [])
  | EvWheel now => (if enabled h then wheel now h else h, [])
  | EvSelectionChange now => (if enabled h then sel now h else h, [])
  | EvFrame now => if enabled h then loopOf v o now h else (h, [])
  | EvNudgeTimeout => (setShowNudge false h, [])
  end.

Fixpoint run (v : Version) (o : AttnOpts) (evs : list event) (h : Hook)
  : Hook * list signal :=
  match evs with
  | [] => (h, [])
  | ev :: rest =>
      let '(h1, out1) := step v o ev h in
      let '(h2, out2) := run v o rest h1 in
      (h2, out1 ++ out2)
  end.

(** No frame of the run computes a score above [finalThreshold + 0.08]. *)
Fixpoint calm (v : Version) (o : AttnOpts) (evs : list event) (h : Hook)
  : Prop :=
  match evs with
  | [] => True
  | ev :: rest =>
      match frameTime ev with
      | Some now =>
          decay o (now - lastActRef (refs h)) <= finalThreshold o + 0.08
      | None => True
      end
      /\ calm v o rest (fst (step v o ev h))
  end.

(** The times at which nudges were raised, oldest first. *)
Fixpoint nudgeTimes (out : list signal) : list R :=
  match out with
  | [] => []
  | SigNudge now :: rest => now :: nudgeTimes rest
  | _ :: rest => nudgeTimes rest
  end.

(** Successive times are more than [gap] apart. *)
Fixpoint spaced (gap : R) (ts : list R) : Prop :=
  match ts with
  | [] => True
  | t :: rest =>
      match rest with
      | [] => True
      | t' :: _ => gap < t' - t
      end /\ spaced gap rest
  end.

(** The same, counting from a previous time [last]. *)
Fixpoint spacedAfter (gap last : R) (ts : list R) : Prop :=
  match ts with
  | [] => True
  | t :: rest => gap < t - last /\ spacedAfter gap t rest
  end.

(** A key-down with any of the four modifier keys of a [KeyboardEvent]
    held. *)
Definition modifierHeld (e : KeyboardEvent) : bool :=
  metaKey e || ctrlKey e || altKey e || shiftKey e.

Definition isFinalWarning (sg : signal) : bool :=
  match sg with SigFinalWarning => true | _ => false end.

Definition isStrike (sg : signal) : bool :=
  match sg with SigStrike => true | _ => false end.

End Attention.

(** ** [useWritingAttention], the version that keeps the counter in a ref *)

Module RefVersion.
Import Attention.

(** The defaults of the destructured options. *)
Definition defaults : AttnOpts := mkOpts 5000 15000 0.5 0.2 5 0.05 15000.

(** The effect body when [enabled] is false. *)
Definition reset (h : Hook) : Hook :=
  let h := setScore 1 h in
  let h := setShowNudge false h in
  let h := setNudges (fun _ => O) h in
  let h := setShowFinalWarning false h in
  let h := setFinalStrike false h in
  let h := setWorstScore (fun _ => 1) h in
  let h := setNudgesRef 0 h in
  let h := setArmedFinalRef false h in
  let h := setHysteresisOkRef true h in
  setLastNudgeRef 0 h.

(** The assignments made when a nudge is due, before the arming test. *)
Definition emit (now : R) (newNudgeCount : nat) (h : Hook) : Hook :=
  let h := setLastNudgeRef now h in
  let h := setNudgesRef newNudgeCount h in
  let h := setNudges (fun _ => newNudgeCount) h in
  setShowNudge true h.

(** The nudge block of [loop]. *)
Definition nudge (o : AttnOpts) (now s : R) (h : Hook) : Hook * list signal :=
  let currentNudges := nudgesRef (refs h) in
  if negb (finalStrike (render h)) && negb (armedFinalRef (refs h))
     && Rltb s (nudgeThreshold o) && (currentNudges <? maxNudges o)%nat
  then
    let sinceLast := now - lastNudgeRef (refs h) in
    if Rgtb sinceLast (nudgeCooldownMs o) then
      let newNudgeCount := (currentNudges + 1)%nat in
      let h := emit now newNudgeCount h in
      if (maxNudges o <=? newNudgeCount)%nat
      then (armFinal h, [SigNudge now; SigFinalWarning])
      else (h, [SigNudge now])
    else (h, [])
  else (h, []).

Definition loop (o : AttnOpts) (now : R) (h : Hook) : Hook * list signal :=
  let idle := now - lastActRef (refs h) in
  let s := decay o idle in
  let h := setScore s h in
  let h := setWorstScore (fun prev => Rmin prev s) h in
  let '(h, out1) := nudge o now s h in
  let h := hysteresis o s h in
  let '(h, out2) := strike o s h in
  (h, out1 ++ out2).

(** The effect, run by React at mount and whenever [enabled] changes; the
    cleanup of the previous run goes first, and only an enabled run
    returned one. *)
Definition effect (b : bool) (h : Hook) : Hook :=
  if b then start h else reset (stop (if enabled h then cleanup h else h)).


Definition useWritingAttention : Version := mkVersion loop effect.

End RefVersion.

(** ** [useWritingAttention], the version that reads the render's cells *)

Module StateVersion.
Import Attention.

Definition defaults : AttnOpts := mkOpts 5000 30000 0.5 0.35 2 0.05 15000.

(** The assignments made when a nudge is due, before the arming test. *)
Definition emit (now : R) (h : Hook) : Hook :=
  let h := setLastNudgeRef now h in
  let h := setNudges (fun n => (n + 1)%nat) h in
  setShowNudge true h.

(** The nudge block of [loop]: [finalStrike], [showFinalWarning] and
    [nudges] are the values of the render the effect closed over. *)
Definition nudge (o : AttnOpts) (now s : R) (h : Hook) : Hook * list signal :=
  if negb (finalStrike (render h)) && negb (showFinalWarning (render h))
     && Rltb s (nudgeThreshold o) && (nudges (render h) <? maxNudges o)%nat
  then
    let sinceLast := now - lastNudgeRef (refs h) in
    if Rgtb sinceLast (nudgeCooldownMs o) then
      let h := emit now h in
      if (maxNudges o <=? nudges (render h) + 1)%nat
      then (armFinal h, [SigNudge now; SigFinalWarning])
      else (h, [SigNudge now])
    else (h, [])
  else (h, []).

Definition loop (o : AttnOpts) (now : R) (h : Hook) : Hook * list signal :=
  let idle := now - lastActRef (refs h) in
  let s := decay o idle in
  let h := setScore s h in
  let h := if Rltb s (worstScore (render h))
           then setWorstScore (fun _ => s) h else h in
  let '(h, out1) := nudge o now s h in
  let h := hysteresis o s h in
  let '(h, out2) := strike o s h in
  (h, out1 ++ out2).

(** The effect returns at once when [enabled] is false. *)
Definition effect (b : bool) (h : Hook) : Hook :=
  if b then start h else stop (if enabled h then cleanup h else h).


Definition useWritingAttention : Version := mkVersion loop effect.

End StateVersion.

(** The two versions of the hook, by name. *)
Definition version (refBased : bool) : Attention.Version :=
  if refBased then RefVersion.useWritingAttention
  else StateVersion.useWritingAttention.

(** ** [useComplianceGuard] *)

Module ComplianceGuard.

(** What the handlers read from the browser: [document.visibilityState
    === "visible"], [document.hasFocus()], [!!document.fullscreenElement]. *)
Record Document := mkDoc {
  visible : bool;
  focused : bool;
  fullscreenElement : bool
}.

Record Options := mkOptions {
  requireFullscreen : bool;
  enableWakeLock : bool;
  initialViolations : nat
}.

(** The hook's cells, and the calls made to the two callbacks of
    [Options]: the arguments given to [onViolation], oldest first, and the
    number of calls of [onResume]. *)
Record Guard := mkGuard {
  needsAttention : bool;
  violations : nat;
  escapeCount : nat;
  wakeLockRef : bool;
  suppressedRef : bool;
  onViolation : list nat;
  onResume : nat
}.

Definition setNeedsAttention (v : bool) (g : Guard) : Guard :=
  mkGuard v (violations g) (escapeCount g) (wakeLockRef g)
          (suppressedRef g) (onViolation g) (onResume g).

Definition isCompliant (o : Options) (d : Document) : bool :=
  let fsOk := negb (requireFullscreen o) || fullscreenElement d in
  visible d && focused d && fsOk.

Definition flagViolation (g : Guard) : Guard :=
  if suppressedRef g then g
  else
    let next := (violations g + 1)%nat in
    mkGuard true next (escapeCount g) (wakeLockRef g)
            (suppressedRef g) (onViolation g ++ [next]) (onResume g).

(** [lock] tells whether the browser handed out a wake lock. *)
Definition requestWakeLock (o : Options) (lock : bool) (g : Guard) : Guard :=
  if enableWakeLock o && lock
  then mkGuard (needsAttention g) (violations g) (escapeCount g) true
               (suppressedRef g) (onViolation g) (onResume g)
  else g.

Definition checkNow (o : Options) (d : Document) (g : Guard) : Guard :=
  if suppressedRef g then setNeedsAttention false g
  else setNeedsAttention (negb (isCompliant o d)) g.

(** [d] is the document as [isCompliant] finds it after the fullscreen
    request, the wake-lock request and the animation frame. *)
Definition resume (o : Options) (lock : bool) (d : Document) (g : Guard) : Guard :=
  let g := requestWakeLock o lock g in
  if isCompliant o d then
    let g := setNeedsAttention false g in
    mkGuard (needsAttention g) (violations g) (escapeCount g) (wakeLockRef g)
            (suppressedRef g) (onViolation g) (onResume g + 1)
  else setNeedsAttention true g.

(** [onKey] on Ctrl+Shift+E; any other key leaves the guard alone. *)
Definition onKey (g : Guard) : Guard :=
  let count := (escapeCount g + 1)%nat in
  if (5 <=? count)%nat then
    mkGuard false (violations g) 0 (wakeLockRef g) true
            (onViolation g) (onResume g + 1)
  else
    mkGuard (needsAttention g) (violations g) count (wakeLockRef g)
            (suppressedRef g) (onViolation g) (onResume g).

(** The two-second timer armed by [onKey]. *)
Definition escapeTimeout (g : Guard) : Guard :=
  mkGuard (needsAttention g) (violations g) 0 (wakeLockRef g)
          (suppressedRef g) (onViolation g) (onResume g).

Definition onVis (o : Options) (d : Document) (g : Guard) : Guard :=
  if negb (isCompliant o d) then flagViolation g else checkNow o d g.
Definition onBlur (o : Options) (d : Document) (g : Guard) : Guard :=
  if negb (isCompliant o d) then flagViolation g else checkNow o d g.
Definition onFocus (o : Options) (d : Document) (g : Guard) : Guard :=
  checkNow o d g.
Definition onFS (o : Options) (d : Document) (g : Guard) : Guard :=
  if negb (isCompliant o d) then flagViolation g else checkNow o d g.

(** Every handler carries the document it reads. *)
Inductive event :=
| VisibilityChange (d : Document)
| Blur (d : Document)
| Focus (d : Document)
| FullscreenChange (d : Document)
| Poll (d : Document)
| EscapeKey
| EscapeTimeout
| Resume (lock : bool) (d : Document).

Definition step (o : Options) (ev : event) (g : Guard) : Guard :=
  match ev with
  | VisibilityChange d => onVis o d g
  | Blur d => onBlur o d g
  | Focus d => onFocus o d g
  | FullscreenChange d => onFS o d g
  | Poll d => checkNow o d g
  | EscapeKey => onKey g
  | EscapeTimeout => escapeTimeout g
  | Resume lock d => resume o lock d g
  end.

Definition run (o : Options) (evs : list event) (g : Guard) : Guard :=
  fold_left (fun g ev => step o ev g) evs g.

(** First render, then the effect's [checkNow()] and [requestWakeLock()]. *)
Definition mount (o : Options) (lock : bool) (d : Document) : Guard :=
  requestWakeLock o lock
    (checkNow o d (mkGuard false (initialViolations o) 0 false false [] 0)).

(** The document an event's handler evaluates the predicate on. *)
Definition observed (ev : event) : option Document :=
  match ev with
  | VisibilityChange d | Blur d | Focus d | FullscreenChange d
  | Poll d | Resume _ d => Some d
  | EscapeKey | EscapeTimeout => None
  end.

(** The events whose handler calls [flagViolation] when the predicate
    fails. *)
Definition flags (o : Options) (ev : event) : bool :=
  match ev with
  | VisibilityChange d | Blur d | FullscreenChange d => negb (isCompliant o d)
  | _ => false
  end.

(** The number of events of a run that flag while the guard is not
    suppressed. *)
Fixpoint flagged (o : Options) (evs : list event) (g : Guard) : nat :=
  match evs with
  | [] => 0
  | ev :: rest =>
      ((if flags o ev && negb (suppressedRef g) then 1 else 0)
       + flagged o rest (step o ev g))%nat
  end.

(** The specification's count: the number of times the predicate, as the
    successive handlers observe it, goes from holding to failing; [prev]
    is its value at the previous observation. *)
Fixpoint transitions (o : Options) (prev : bool) (evs : list event) : nat :=
  match evs with
  | [] => 0
  | ev :: rest =>
      match observed ev with
      | None => transitions o prev rest
      | Some d =>
          let c := isCompliant o d in
          ((if prev && negb c then 1 else 0) + transitions o c rest)%nat
      end
  end.

End ComplianceGuard.

(** ** [useAttentionGuard], the guard behind [FullscreenGuard] *)

Module AttentionGuard.

Record GuardOptions := mkGuardOptions {
  enableWakeLock : bool
}.

(** The hook's cells and the calls made to [onViolation] (arguments,
    oldest first) and to [onAllowedResume] (how many). *)
Record Guard := mkGuard {
  needsAttention : bool;
  violationCount : nat;
  escapeCount : nat;
  wakeLockRef : bool;
  onViolation : list nat;
  onAllowedResume : nat
}.

Definition flagViolation (g : Guard) : Guard :=
  let next := (violationCount g + 1)%nat in
  mkGuard true next (escapeCount g) (wakeLockRef g)
          (onViolation g ++ [next]) (onAllowedResume g).

Definition requestWakeLock (o : GuardOptions) (lock : bool) (g : Guard) : Guard :=
  if enableWakeLock o && lock
  then mkGuard (needsAttention g) (violationCount g) (escapeCount g) true
               (onViolation g) (onAllowedResume g)
  else g.

Definition onVisibility (d : ComplianceGuard.Document) (g : Guard) : Guard :=
  if negb (ComplianceGuard.visible d) then flagViolation g else g.

Definition onBlur (g : Guard) : Guard := flagViolation g.

Definition onFullscreenChange (d : ComplianceGuard.Document) (g : Guard) : Guard :=
  if negb (ComplianceGuard.fullscreenElement d) then flagViolation g else g.

(** [onKey] on Ctrl+Shift+E. *)
Definition onKey (g : Guard) : Guard :=
  let count := (escapeCount g + 1)%nat in
  if (5 <=? count)%nat then
    mkGuard false (violationCount g) 0 (wakeLockRef g)
            (onViolation g) (onAllowedResume g + 1)
  else
    mkGuard (needsAttention g) (violationCount g) count (wakeLockRef g)
            (onViolation g) (onAllowedResume g).

(** [resume] asks for fullscreen and the wake lock and then clears the
    overlay; it does not look at the document, which is passed here only
    to name the state it leaves unread. *)
Definition resume (o : GuardOptions) (lock : bool)
           (d : ComplianceGuard.Document) (g : Guard) : Guard :=
  let g := requestWakeLock o lock g in
  mkGuard false (violationCount g) (escapeCount g) (wakeLockRef g)
          (onViolation g) (onAllowedResume g + 1).

Definition mount (o : GuardOptions) (lock : bool) : Guard :=
  requestWakeLock o lock (mkGuard false 0 0 false [] 0).

End AttentionGuard.

(** ** The ban effects of [StudyApp]

    The root component reads [finalStrike] from [useWritingAttention] and
    receives the guard's counts through [onViolation]; two effects turn
    them into calls of [banParticipant]. *)

Module StudyApp.

(** [meta] tells whether the session meta is loaded ([meta] not null);
    [blocked] whether a blocking reason is set;
    [banParticipant] counts the calls of that function. *)
Record App := mkApp {
  meta : bool;
  totalViolations : nat;
  blocked : bool;
  bannedForStrikeRef : bool;
  bannedForViolationsRef : bool;
  banParticipant : nat
}.

(** The effect on [[attn.finalStrike, meta]]. *)
Definition strikeEffect (finalStrike : bool) (a : App) : App :=
  if finalStrike && negb (bannedForStrikeRef a) && meta a
  then mkApp (meta a) (totalViolations a) (blocked a) true
             (bannedForViolationsRef a) (banParticipant a + 1)
  else a.

(** The effect on [[totalViolations, meta]]. *)
Definition violationsEffect (a : App) : App :=
  if (5 <? totalViolations a)%nat && negb (bannedForViolationsRef a) && meta a
  then mkApp (meta a) (totalViolations a) true (bannedForStrikeRef a)
             true (banParticipant a + 1)
  else a.

(** The [onViolation] handed to every [ComplianceGate]:
    [setTotalViolations(n)], after which the effect runs. *)
Definition onViolation (n : nat) (a : App) : App :=
  violationsEffect
    (mkApp (meta a) n (blocked a) (bannedForStrikeRef a)
           (bannedForViolationsRef a) (banParticipant a)).

(** The counts a guard reported, oldest first, reaching the app. *)
Definition report (ns : list nat) (a : App) : App :=
  fold_left (fun a n => onViolation n a) ns a.

(** What reaches the two effects: a render with a value of
    [attn.finalStrike], or a count from a guard. *)
Inductive event :=
| FinalStrike (finalStrike : bool)
| Violation (n : nat).

Definition step (ev : event) (a : App) : App :=
  match ev with
  | FinalStrike b => strikeEffect b a
  | Violation n => onViolation n a
  end.

Definition run (evs : list event) (a : App) : App :=
  fold_left (fun a ev => step ev a) evs a.

End StudyApp.

(** ** Further predicates on hooks *)

(** An event handled by one of the six activity listeners. *)
Definition isActivity (ev : Attention.event) : bool :=
  match ev with
  | Attention.EvKeyDown _ _ | Attention.EvInput _ | Attention.EvMouseMove _
  | Attention.EvMouseDown _ | Attention.EvWheel _
  | Attention.EvSelectionChange _ => true
  | _ => false
  end.

(** The worst-score cell is at most the score cell and at most one. *)
Definition worstInv (h : Attention.Hook) : Prop :=
  Attention.worstScore (Attention.state h)
  <= Attention.score (Attention.state h)
  /\ Attention.worstScore (Attention.state h) <= 1.

(** The ref-based version between sessions and at their start: the effect
    closed over the initial render, and a disabled hook holds the initial
    cells and refs (but for [lastActRef]). *)
Definition freshInv (h : Attention.Hook) : Prop :=
  Attention.render h = Attention.initialState
  /\ (Attention.enabled h = true
      \/ (Attention.state h = Attention.initialState
          /\ Attention.nudgesRef (Attention.refs h) = 0%nat
          /\ Attention.armedFinalRef (Attention.refs h) = false
          /\ Attention.hysteresisOkRef (Attention.refs h) = true
          /\ Attention.lastNudgeRef (Attention.refs h) = 0)).

(** ** Predicates on hooks used below *)

Definition scoreInRange (h : Attention.Hook) : Prop :=
  0 <= Attention.score (Attention.state h) <= 1.

(** The banner cell and the armed ref agree, and a strike is only ever set
    on an armed hook. *)
Definition armedInv (h : Attention.Hook) : Prop :=
  Attention.showFinalWarning (Attention.state h)
  = Attention.armedFinalRef (Attention.refs h)
  /\ (Attention.finalStrike (Attention.state h) = true ->
      Attention.armedFinalRef (Attention.refs h) = true).

(** The strike block cannot fire on this hook. *)
Definition unready (h : Attention.Hook) : Prop :=
  Attention.armedFinalRef (Attention.refs h)
  && Attention.hysteresisOkRef (Attention.refs h) = false.

(** The counter of the ref-based version: it is at most [maxNudges], the
    cell follows the ref, and the hook is armed exactly when the counter
    has been brought to [maxNudges]. *)
Definition counterInv (o : Attention.AttnOpts) (h : Attention.Hook) : Prop :=
  (Attention.nudgesRef (Attention.refs h) <= Attention.maxNudges o)%nat
  /\ Attention.nudges (Attention.state h)
     = Attention.nudgesRef (Attention.refs h)
  /\ (Attention.armedFinalRef (Attention.refs h) = true ->
      Attention.nudgesRef (Attention.refs h) = Attention.maxNudges o)
  /\ (Attention.armedFinalRef (Attention.refs h) = false ->
      Attention.nudgesRef (Attention.refs h) = Attention.maxNudges o ->
      Attention.maxNudges o = 0%nat).

(** A hook of the version that reads the render's cells, in a session that
    began at the mount and has seen no activity since time 0: the effect
    still sees the first render, and the final warning is not armed. *)
Definition staleSession (h : Attention.Hook) : Prop :=
  Attention.enabled h = true
  /\ Attention.render h = Attention.initialState
  /\ Attention.armedFinalRef (Attention.refs h) = false
  /\ Attention.lastActRef (Attention.refs h) = 0.

(** * Properties *)

(** ** Number comparisons *)

Lemma Rltb_true (a b : R) : Rltb a b = true <-> a < b.
Proof.
  unfold Rltb. destruct (Rlt_dec a b); split; intros; try easy; lra.
Qed.

Lemma Rltb_false (a b : R) : Rltb a b = false <-> b <= a.
Proof.
  unfold Rltb. destruct (Rlt_dec a b); split; intros; try easy; lra.
Qed.

Lemma Rgtb_true (a b : R) : Rgtb a b = true <-> b < a.
Proof. apply Rltb_true. Qed.

Lemma Rgtb_false (a b : R) : Rgtb a b = false <-> a <= b.
Proof. apply Rltb_false. Qed.

(** ** The decay curve *)

Section Decay.
Import Attention.
Variable o : AttnOpts.

Lemma decay_within_grace (idle : R) :
  idle <= graceMs o -> decay o idle = 1.
Proof.
  intros H. unfold decay.
  now rewrite (proj2 (Rgtb_false idle (graceMs o)) H).
Qed.

Lemma decay_past_grace (idle : R) :
  graceMs o < idle ->
  decay o idle
  = Rmax (minScore o) (exp (- ln 2 * (idle - graceMs o) / halfLifeMs o)).
Proof.
  intros H. unfold decay.
  rewrite (proj2 (Rgtb_true idle (graceMs o)) H). cbv zeta.
  f_equal. f_equal. unfold Rdiv. ring.
Qed.

Lemma ln2_pos : 0 < ln 2.
Proof. pose proof ln_lt_2. lra. Qed.

Hypothesis halfLife_pos : 0 < halfLifeMs o.

Lemma half_life_exponent_le (t t' : R) :
  t <= t' ->
  - ln 2 * (t' - graceMs o) / halfLifeMs o
  <= - ln 2 * (t - graceMs o) / halfLifeMs o.
Proof.
  intros H. unfold Rdiv.
  apply Rmult_le_compat_r.
  - left. now apply Rinv_0_lt_compat.
  - pose proof ln2_pos. nra.
Qed.

Lemma exp_le (x y : R) : x <= y -> exp x <= exp y.
Proof.
  intros [H | ->]; [left; now apply exp_increasing | right; reflexivity].
Qed.

Lemma decay_curve_antitone (t t' : R) :
  t <= t' ->
  Rmax (minScore o) (exp (- ln 2 * (t' - graceMs o) / halfLifeMs o))
  <= Rmax (minScore o) (exp (- ln 2 * (t - graceMs o) / halfLifeMs o)).
Proof.
  intros H. apply Rle_max_compat_l, exp_le, half_life_exponent_le, H.
Qed.

Lemma decay_curve_le_1 (t : R) :
  graceMs o < t -> exp (- ln 2 * (t - graceMs o) / halfLifeMs o) <= 1.
Proof.
  intros H. rewrite <- exp_0. apply exp_le.
  replace 0 with (- ln 2 * (graceMs o - graceMs o) / halfLifeMs o)
    by (unfold Rdiv; ring).
  apply half_life_exponent_le. lra.
Qed.

Hypothesis minScore_le_1 : minScore o <= 1.

Lemma decay_range (idle : R) : 0 < decay o idle <= 1.
Proof.
  destruct (Rle_or_lt idle (graceMs o)) as [H | H].
  - rewrite decay_within_grace by assumption. lra.
  - rewrite decay_past_grace by assumption. split.
    + eapply Rlt_le_trans; [apply exp_pos | apply Rmax_r].
    + apply Rmax_lub; [assumption | now apply decay_curve_le_1].
Qed.

Lemma decay_antitone (t t' : R) : t <= t' -> decay o t' <= decay o t.
Proof.
  intros H.
  destruct (Rle_or_lt t (graceMs o)) as [Ht | Ht].
  - rewrite (decay_within_grace t) by assumption. apply decay_range.
  - rewrite !decay_past_grace by lra. now apply decay_curve_antitone.
Qed.

End Decay.

(** ** The blocks of [loop], case by case *)

Import Attention.

Ltac hook_simpl :=
  cbn [state refs render enabled score showNudge showFinalWarning finalStrike
       nudges worstScore lastActRef lastNudgeRef nudgesRef armedFinalRef
       hysteresisOkRef fst snd
       withState withRefs setScore setShowNudge setShowFinalWarning
       setFinalStrike setNudges setWorstScore setLastActRef setLastNudgeRef
       setNudgesRef setArmedFinalRef setHysteresisOkRef
       armFinal RefVersion.emit StateVersion.emit RefVersion.reset
       markActive key input mouse wheel sel cleanup start stop
       initialHook initialState] in *.

Ltac bool_facts :=
  repeat match goal with
    | H : _ && _ = true |- _ => apply andb_prop in H; destruct H
    | H : negb _ = true |- _ => apply negb_true_iff in H
    | H : Rltb _ _ = true |- _ => apply Rltb_true in H
    | H : Rltb _ _ = false |- _ => apply Rltb_false in H
    | H : Rgtb _ _ = true |- _ => apply Rgtb_true in H
    | H : Rgtb _ _ = false |- _ => apply Rgtb_false in H
    | H : (_ <? _)%nat = true |- _ => apply Nat.ltb_lt in H
    | H : (_ <? _)%nat = false |- _ => apply Nat.ltb_ge in H
    | H : (_ <=? _)%nat = true |- _ => apply Nat.leb_le in H
    | H : (_ <=? _)%nat = false |- _ => apply Nat.leb_gt in H
    end.

Lemma hysteresis_cases o s h :
  hysteresis o s h = h \/
  (armedFinalRef (refs h) = true /\ finalThreshold o + 0.08 < s /\
   hysteresis o s h = setHysteresisOkRef true h).
Proof.
  unfold hysteresis.
  destruct (armedFinalRef (refs h) && Rgtb s (finalThreshold o + 0.08)) eqn:E;
    [right | left; reflexivity].
  bool_facts. auto.
Qed.

Lemma strike_cases o s h :
  strike o s h = (h, []) \/
  (armedFinalRef (refs h) = true /\ hysteresisOkRef (refs h) = true /\
   s < finalThreshold o /\ finalStrike (render h) = false /\
   strike o s h = (setHysteresisOkRef false (setFinalStrike true h), [SigStrike])).
Proof.
  unfold strike.
  destruct (armedFinalRef (refs h) && negb (finalStrike (render h))
            && Rltb s (finalThreshold o) && hysteresisOkRef (refs h)) eqn:E;
    [right | left; reflexivity].
  bool_facts. auto.
Qed.

Lemma ref_nudge_cases o now s h :
  RefVersion.nudge o now s h = (h, []) \/
  (armedFinalRef (refs h) = false /\ s < nudgeThreshold o /\
   nudgeCooldownMs o < now - lastNudgeRef (refs h) /\
   (((nudgesRef (refs h) + 1 < maxNudges o)%nat /\
     RefVersion.nudge o now s h
     = (RefVersion.emit now (nudgesRef (refs h) + 1) h, [SigNudge now]))
    \/
    ((nudgesRef (refs h) + 1)%nat = maxNudges o /\
     RefVersion.nudge o now s h
     = (armFinal (RefVersion.emit now (nudgesRef (refs h) + 1) h),
        [SigNudge now; SigFinalWarning])))).
Proof.
  unfold RefVersion.nudge. cbv zeta.
  destruct (negb (finalStrike (render h)) && negb (armedFinalRef (refs h))
            && Rltb s (nudgeThreshold o)
            && (nudgesRef (refs h) <? maxNudges o)%nat) eqn:E;
    [| left; reflexivity].
  destruct (Rgtb (now - lastNudgeRef (refs h)) (nudgeCooldownMs o)) eqn:C;
    [| left; reflexivity].
  right. bool_facts.
  destruct (maxNudges o <=? nudgesRef (refs h) + 1)%nat eqn:A; bool_facts.
  - repeat split; auto. right. split; [lia | reflexivity].
  - repeat split; auto.
Qed.

Lemma state_nudge_cases o now s h :
  StateVersion.nudge o now s h = (h, []) \/
  (showFinalWarning (render h) = false /\ s < nudgeThreshold o /\
   (nudges (render h) < maxNudges o)%nat /\
   nudgeCooldownMs o < now - lastNudgeRef (refs h) /\
   (((nudges (render h) + 1 < maxNudges o)%nat /\
     StateVersion.nudge o now s h
     = (StateVersion.emit now h, [SigNudge now]))
    \/
    ((nudges (render h) + 1)%nat = maxNudges o /\
     StateVersion.nudge o now s h
     = (armFinal (StateVersion.emit now h),
        [SigNudge now; SigFinalWarning])))).
Proof.
  unfold StateVersion.nudge.
  destruct (negb (finalStrike (render h)) && negb (showFinalWarning (render h))
            && Rltb s (nudgeThreshold o)
            && (nudges (render h) <? maxNudges o)%nat) eqn:E;
    [| left; reflexivity].
  cbv zeta.
  destruct (Rgtb (now - lastNudgeRef (refs h)) (nudgeCooldownMs o)) eqn:C;
    [| left; reflexivity].
  right. bool_facts.
  change (render (StateVersion.emit now h)) with (render h).
  destruct (maxNudges o <=? nudges (render h) + 1)%nat eqn:A; bool_facts.
  - repeat split; auto. right. split; [lia | reflexivity].
  - repeat split; auto.
Qed.

(** Splits a [loop] of either version into the outcomes of its three
    blocks. *)
Ltac loop_cases :=
  unfold RefVersion.loop, StateVersion.loop; cbv zeta;
  match goal with
  | |- context [RefVersion.nudge ?o ?now ?s ?h] =>
      destruct (ref_nudge_cases o now s h)
        as [?E | (? & ? & ? & [(? & ?E) | (? & ?E)])]; rewrite E; clear E
  | |- context [StateVersion.nudge ?o ?now ?s ?h] =>
      destruct (state_nudge_cases o now s h)
        as [?E | (? & ? & ? & ? & [(? & ?E) | (? & ?E)])]; rewrite E; clear E
  end;
  match goal with
  | |- context [hysteresis ?o ?s ?h] =>
      destruct (hysteresis_cases o s h) as [?E | (? & ? & ?E)];
      rewrite E; clear E
  end;
  match goal with
  | |- context [strike ?o ?s ?h] =>
      destruct (strike_cases o s h) as [?E | (? & ? & ? & ? & ?E)];
      rewrite E; clear E
  end;
  hook_simpl.

(** ** Lifting a property of the handlers to runs *)

Section Preservation.
Variables (v : Version) (o : AttnOpts) (P : Hook -> Prop).

Hypothesis P_active : forall now h, P h -> P (markActive now h).
Hypothesis P_loop : forall now h, P h -> P (fst (loopOf v o now h)).
Hypothesis P_timeout : forall h, P h -> P (setShowNudge false h).

Lemma session_step_preserves ev h :
  inSession ev = true -> P h -> P (fst (step v o ev h)).
Proof.
  intros S H. destruct ev; try discriminate S; cbn [step fst].
  - unfold key. destruct (enabled h); [destruct (_ || _) |]; auto.
  - unfold input. destruct (enabled h); auto.
  - unfold mouse. destruct (enabled h); auto.
  - unfold mouse. destruct (enabled h); auto.
  - unfold wheel. destruct (enabled h); auto.
  - unfold sel. destruct (enabled h); auto.
  - destruct (enabled h); auto.
  - auto.
Qed.

Lemma session_preserves evs :
  forallb inSession evs = true ->
  forall h, P h -> P (fst (run v o evs h)).
Proof.
  induction evs as [| ev evs IH]; intros S h H; [exact H |].
  cbn [forallb] in S. apply andb_prop in S as [S1 S2].
  cbn [run]. pose proof (session_step_preserves ev h S1 H) as H1.
  destruct (step v o ev h) as [h1 out1]. cbn [fst] in H1.
  specialize (IH S2 h1 H1).
  destruct (run v o evs h1) as [h2 out2]. exact IH.
Qed.

Hypothesis P_effect : forall b h, P h -> P (effectOf v b h).

Lemma step_preserves ev h : P h -> P (fst (step v o ev h)).
Proof.
  intros H. destruct ev; try (now apply session_step_preserves).
  cbn [step fst]. destruct (Bool.eqb b (enabled h)); auto.
Qed.

Lemma run_preserves evs : forall h, P h -> P (fst (run v o evs h)).
Proof.
  induction evs as [| ev evs IH]; intros h H; [exact H |].
  cbn [run]. pose proof (step_preserves ev h H) as H1.
  destruct (step v o ev h) as [h1 out1]. cbn [fst] in H1.
  specialize (IH h1 H1).
  destruct (run v o evs h1) as [h2 out2]. exact IH.
Qed.

End Preservation.

Lemma run_cons v o ev evs h :
  run v o (ev :: evs) h
  = (fst (run v o evs (fst (step v o ev h))),
     snd (step v o ev h) ++ snd (run v o evs (fst (step v o ev h)))).
Proof.
  cbn [run]. destruct (step v o ev h) as [h1 out1]. cbn [fst snd].
  now destruct (run v o evs h1).
Qed.

(** ** The score stays in range *)

Section ScoreRange.
Variable o : AttnOpts.
Hypothesis halfLife_pos : 0 < halfLifeMs o.
Hypothesis minScore_le_1 : minScore o <= 1.

Lemma ref_loop_score now h :
  score (state (fst (RefVersion.loop o now h)))
  = decay o (now - lastActRef (refs h)).
Proof. loop_cases; reflexivity. Qed.

Lemma state_loop_score now h :
  score (state (fst (StateVersion.loop o now h)))
  = decay o (now - lastActRef (refs h)).
Proof.
  unfold StateVersion.loop.
  destruct (Rltb _ _); loop_cases; reflexivity.
Qed.

Lemma score_in_range_mount refBased b t0 :
  scoreInRange (mount (version refBased) b t0).
Proof.
  unfold scoreInRange.
  destruct refBased, b; cbn; lra.
Qed.

Lemma score_in_range_run refBased evs h :
  scoreInRange h -> scoreInRange (fst (run (version refBased) o evs h)).
Proof.
  apply run_preserves; unfold scoreInRange.
  - intros now h0 _. hook_simpl. lra.
  - intros now h0 _. destruct refBased; cbn [version loopOf
      RefVersion.useWritingAttention StateVersion.useWritingAttention].
    + rewrite ref_loop_score.
      pose proof (decay_range o halfLife_pos minScore_le_1
                    (now - lastActRef (refs h0))). lra.
    + rewrite state_loop_score.
      pose proof (decay_range o halfLife_pos minScore_le_1
                    (now - lastActRef (refs h0))). lra.
  - intros h0 H. exact H.
  - intros b h0 H.
    destruct refBased, b; cbn [version effectOf
      RefVersion.useWritingAttention StateVersion.useWritingAttention
      RefVersion.effect StateVersion.effect]; try exact H.
    + hook_simpl. lra.
    + destruct (enabled h0); exact H.
Qed.

End ScoreRange.

(** C3.  With a positive half-life and a floor of at most one: an idle time
    within the grace period scores 1; a longer idle time [t] scores
    [max minScore (exp (- ln 2 * (t - graceMs) / halfLifeMs))]; that curve
    and the score as a whole do not increase with the idle time.  The
    score is what [loop] of either version stores: after a frame at time
    [now] the score cell holds the score of the idle time
    [now - lastActRef].  Hence the score cell of a mounted hook of either
    version is in [[0,1]] after any events. *)
Theorem score_follows_half_life_decay
        (o : AttnOpts) (t t' : R) (refBased b : bool) (t0 : R)
        (evs : list event) (now : R) (h : Hook) :
  0 < halfLifeMs o ->
  minScore o <= 1 ->
  (t <= graceMs o -> decay o t = 1)
  /\ (graceMs o < t ->
      decay o t
      = Rmax (minScore o) (exp (- ln 2 * (t - graceMs o) / halfLifeMs o)))
  /\ (t <= t' ->
      Rmax (minScore o) (exp (- ln 2 * (t' - graceMs o) / halfLifeMs o))
      <= Rmax (minScore o) (exp (- ln 2 * (t - graceMs o) / halfLifeMs o)))
  /\ (t <= t' -> decay o t' <= decay o t)
  /\ 0 <= decay o t <= 1
  /\ score (state (fst (loopOf (version refBased) o now h)))
     = decay o (now - lastActRef (refs h))
  /\ (enabled h = true ->
      score (state (fst (step (version refBased) o (EvFrame now) h)))
      = decay o (now - lastActRef (refs h)))
  /\ 0 <= score (state (fst (run (version refBased) o evs
                               (mount (version refBased) b t0)))) <= 1.
Proof.
  intros Hh Hm.
  assert (score (state (fst (loopOf (version refBased) o now h)))
          = decay o (now - lastActRef (refs h))) as L
    by (destruct refBased; [apply ref_loop_score | apply state_loop_score]).
  split; [apply decay_within_grace |].
  split; [apply decay_past_grace |].
  split; [now apply decay_curve_antitone |].
  split; [now apply decay_antitone |].
  split; [pose proof (decay_range o Hh Hm t); lra |].
  split; [exact L |].
  split.
  - intros En. cbn [step]. rewrite En. exact L.
  - apply (score_in_range_run o Hh Hm), score_in_range_mount.
Qed.
(** ** What holds of every hook reached from a mount *)

Ltac version_simpl :=
  cbn [version loopOf effectOf RefVersion.useWritingAttention
       StateVersion.useWritingAttention mount] in *.

Lemma armed_inv_loop refBased o now h :
  armedInv h -> armedInv (fst (loopOf (version refBased) o now h)).
Proof.
  unfold armedInv. intros [H1 H2].
  destruct refBased; version_simpl.
  - loop_cases; split; intros; try congruence; auto.
  - unfold StateVersion.loop. destruct (Rltb _ _);
      loop_cases; split; intros; try congruence; auto.
Qed.

Lemma armed_inv_effect refBased b h :
  armedInv h -> armedInv (effectOf (version refBased) b h).
Proof.
  unfold armedInv. intros [H1 H2].
  destruct refBased, b; version_simpl;
    unfold RefVersion.effect, StateVersion.effect; hook_simpl;
    try destruct (enabled h); hook_simpl; split; intros;
    try congruence; auto.
Qed.

Lemma armed_inv_reachable refBased o b t0 evs :
  armedInv (fst (run (version refBased) o evs (mount (version refBased) b t0))).
Proof.
  apply run_preserves.
  - intros now h H. exact H.
  - intros now h. apply armed_inv_loop.
  - intros h H. exact H.
  - intros b0 h. apply armed_inv_effect.
  - destruct refBased, b; version_simpl;
      unfold RefVersion.effect, StateVersion.effect;
      split; intros; hook_simpl; try congruence; auto.
Qed.

(** The strike cell is only written with [true] while a session lasts. *)
Lemma strike_sticky refBased o evs h :
  forallb inSession evs = true ->
  finalStrike (state h) = true ->
  finalStrike (state (fst (run (version refBased) o evs h))) = true.
Proof.
  intros S. revert h.
  apply (session_preserves (version refBased) o
           (fun h => finalStrike (state h) = true)); try assumption.
  - intros now h H. exact H.
  - intros now h H. destruct refBased; version_simpl.
    + loop_cases; congruence.
    + unfold StateVersion.loop. destruct (Rltb _ _); loop_cases; congruence.
  - intros h H. exact H.
Qed.

(** C6.  In either version, at every hook reached from a mount: as long as
    the final warning is not armed (ref or banner cell), [finalStrike] is
    false; and a [finalStrike] that is true stays true through any further
    events of the same session (events that do not change [enabled]). *)
Theorem strike_waits_for_arming_and_is_kept
        (refBased : bool) (o : AttnOpts) (b : bool) (t0 : R)
        (evs evs' : list event) :
  forallb inSession evs' = true ->
  let v := version refBased in
  let h := fst (run v o evs (mount v b t0)) in
  (armedFinalRef (refs h) = false -> finalStrike (state h) = false)
  /\ (showFinalWarning (state h) = false -> finalStrike (state h) = false)
  /\ (finalStrike (state h) = true ->
      finalStrike (state (fst (run v o evs' h))) = true).
Proof.
  intros S v h.
  destruct (armed_inv_reachable refBased o b t0 evs) as [H1 H2].
  fold v in H1, H2. fold h in H1, H2.
  repeat split.
  - intros A. destruct (finalStrike (state h)); [| reflexivity].
    rewrite H2 in A by reflexivity. discriminate.
  - intros A. destruct (finalStrike (state h)); [| reflexivity].
    rewrite H1, H2 in A by reflexivity. discriminate.
  - now apply strike_sticky.
Qed.

Lemma strike_waits_for_arming_and_is_kept_witness :
  let v := version true in
  let h := fst (run v RefVersion.defaults [EvInput 10] (mount v true 0)) in
  (armedFinalRef (refs h) = false -> finalStrike (state h) = false)
  /\ (showFinalWarning (state h) = false -> finalStrike (state h) = false)
  /\ (finalStrike (state h) = true ->
      finalStrike (state (fst (run v RefVersion.defaults [EvFrame 20; EvNudgeTimeout] h)))
      = true).
Proof.
  apply (strike_waits_for_arming_and_is_kept
           true RefVersion.defaults true 0 [EvInput 10]
           [EvFrame 20; EvNudgeTimeout]).
  reflexivity.
Defined.
(** ** Whole half-lives *)

Lemma exp_neg_ln2 : exp (- ln 2) = / 2.
Proof. rewrite exp_Ropp, exp_ln by lra. reflexivity. Qed.

Lemma exp_half_lives (k : nat) : exp (- ln 2 * INR k) = (/ 2) ^ k.
Proof.
  induction k as [| k IH].
  - cbn [INR pow]. rewrite Rmult_0_r. apply exp_0.
  - rewrite S_INR.
    replace (- ln 2 * (INR k + 1)) with (- ln 2 * INR k + - ln 2) by ring.
    rewrite exp_plus, IH, exp_neg_ln2. cbn [pow]. ring.
Qed.

Lemma decay_after_half_lives o (k : nat) (idle : R) :
  0 < halfLifeMs o ->
  graceMs o < idle ->
  graceMs o + halfLifeMs o * INR k <= idle ->
  decay o idle <= Rmax (minScore o) ((/ 2) ^ k).
Proof.
  intros Hh Hg Hk. rewrite decay_past_grace by assumption.
  apply Rle_max_compat_l. rewrite <- exp_half_lives. apply exp_le.
  assert (INR k <= (idle - graceMs o) / halfLifeMs o) as Hq.
  { apply Rmult_le_reg_r with (halfLifeMs o); [assumption |].
    unfold Rdiv. rewrite Rmult_assoc, Rinv_l by lra. lra. }
  pose proof ln2_pos. unfold Rdiv in *. nra.
Qed.

(** The first scenario of the specification: five seconds of grace, a
    half-life of fifteen seconds. *)
Example decay_scenario :
  decay RefVersion.defaults 5000 = 1
  /\ decay RefVersion.defaults 20000 = 0.5
  /\ decay RefVersion.defaults 35000 = 0.25.
Proof.
  repeat split.
  - apply decay_within_grace. cbn. lra.
  - rewrite decay_past_grace by (cbn; lra). cbn [RefVersion.defaults
      minScore graceMs halfLifeMs].
    replace (- ln 2 * (20000 - 5000) / 15000) with (- ln 2 * INR 1)
      by (cbn [INR]; field).
    rewrite exp_half_lives. rewrite Rmax_right; cbn [pow]; lra.
  - rewrite decay_past_grace by (cbn; lra). cbn [RefVersion.defaults
      minScore graceMs halfLifeMs].
    replace (- ln 2 * (35000 - 5000) / 15000) with (- ln 2 * INR 2)
      by (cbn [INR]; field).
    rewrite exp_half_lives. rewrite Rmax_right; cbn [pow]; lra.
Qed.

(** ** Hysteresis *)

Ltac unready_solve :=
  unfold unready in *; hook_simpl;
  repeat match goal with
    | H : armedFinalRef _ = _ |- _ => rewrite H in *
    | H : hysteresisOkRef _ = _ |- _ => rewrite H in *
    end;
  cbn [andb] in *; try reflexivity; try assumption; try discriminate;
  try lra.

Lemma calm_loop refBased o now h :
  unready h ->
  decay o (now - lastActRef (refs h)) <= finalThreshold o + 0.08 ->
  let r := loopOf (version refBased) o now h in
  unready (fst r)
  /\ existsb isStrike (snd r) = false
  /\ finalStrike (state (fst r)) = finalStrike (state h).
Proof.
  intros U C. destruct refBased; version_simpl.
  - loop_cases; repeat split; unready_solve.
  - unfold StateVersion.loop. destruct (Rltb _ _);
      loop_cases; repeat split; unready_solve.
Qed.

Lemma calm_step refBased o ev h :
  unready h ->
  match frameTime ev with
  | Some now => decay o (now - lastActRef (refs h)) <= finalThreshold o + 0.08
  | None => True
  end ->
  let r := step (version refBased) o ev h in
  unready (fst r)
  /\ existsb isStrike (snd r) = false
  /\ (finalStrike (state h) = false -> finalStrike (state (fst r)) = false).
Proof.
  intros U C. destruct ev; cbn [step frameTime] in *.
  - destruct (Bool.eqb b (enabled h)); [now auto |].
    destruct refBased, b; version_simpl;
      unfold RefVersion.effect, StateVersion.effect;
      try destruct (enabled h); repeat split; intros; unready_solve.
  - unfold key. destruct (enabled h); [destruct (_ || _) |];
      repeat split; intros; unready_solve.
  - destruct (enabled h); repeat split; intros; unready_solve.
  - destruct (enabled h); repeat split; intros; unready_solve.
  - destruct (enabled h); repeat split; intros; unready_solve.
  - destruct (enabled h); repeat split; intros; unready_solve.
  - destruct (enabled h); repeat split; intros; unready_solve.
  - destruct (enabled h); [| now auto].
    destruct (calm_loop refBased o now h U C) as (A & B & D).
    repeat split; try assumption. intros F. now rewrite D.
  - repeat split; intros; unready_solve.
Qed.

Lemma calm_run refBased o evs :
  forall h,
  unready h ->
  calm (version refBased) o evs h ->
  let r := run (version refBased) o evs h in
  unready (fst r)
  /\ existsb isStrike (snd r) = false
  /\ (finalStrike (state h) = false -> finalStrike (state (fst r)) = false).
Proof.
  induction evs as [| ev evs IH]; intros h U C.
  - cbn. auto.
  - destruct C as [C1 C2].
    destruct (calm_step refBased o ev h U C1) as (A & B & D).
    destruct (IH _ A C2) as (A' & B' & D').
    cbv zeta. rewrite run_cons. cbn [fst snd].
    repeat split; try assumption.
    + rewrite existsb_app, B, B'. reflexivity.
    + auto.
Qed.

(** ** What [loop] leaves alone *)

Lemma loop_keeps refBased o now h :
  let h' := fst (loopOf (version refBased) o now h) in
  lastActRef (refs h') = lastActRef (refs h)
  /\ render h' = render h
  /\ enabled h' = enabled h.
Proof.
  destruct refBased; version_simpl.
  - loop_cases; auto.
  - unfold StateVersion.loop. destruct (Rltb _ _); loop_cases; auto.
Qed.

(** ** Spacing of the nudges *)

Lemma nudge_gap_loop refBased o now h :
  let r := loopOf (version refBased) o now h in
  (nudgeTimes (snd r) = []
   /\ lastNudgeRef (refs (fst r)) = lastNudgeRef (refs h))
  \/ (nudgeTimes (snd r) = [now]
      /\ lastNudgeRef (refs (fst r)) = now
      /\ nudgeCooldownMs o < now - lastNudgeRef (refs h)).
Proof.
  destruct refBased; version_simpl.
  - loop_cases; cbn [nudgeTimes app]; auto.
  - unfold StateVersion.loop. destruct (Rltb _ _);
      loop_cases; cbn [nudgeTimes app]; auto.
Qed.

Lemma nudge_gap_step refBased o ev h :
  inSession ev = true ->
  let r := step (version refBased) o ev h in
  (nudgeTimes (snd r) = []
   /\ lastNudgeRef (refs (fst r)) = lastNudgeRef (refs h))
  \/ (exists now, nudgeTimes (snd r) = [now]
      /\ lastNudgeRef (refs (fst r)) = now
      /\ nudgeCooldownMs o < now - lastNudgeRef (refs h)).
Proof.
  intros S. destruct ev; try discriminate S; cbn [step].
  - unfold key. destruct (enabled h); [destruct (_ || _) |]; left; auto.
  - destruct (enabled h); left; auto.
  - destruct (enabled h); left; auto.
  - destruct (enabled h); left; auto.
  - destruct (enabled h); left; auto.
  - destruct (enabled h); left; auto.
  - destruct (enabled h); [| left; auto].
    destruct (nudge_gap_loop refBased o now h) as [H | H]; [left | right]; eauto.
  - left; auto.
Qed.

Lemma nudgeTimes_app out1 out2 :
  nudgeTimes (out1 ++ out2) = nudgeTimes out1 ++ nudgeTimes out2.
Proof.
  induction out1 as [| [t | |] out1 IH]; cbn [nudgeTimes app]; congruence.
Qed.

Lemma nudge_gap_run refBased o evs :
  forallb inSession evs = true ->
  forall h,
  spacedAfter (nudgeCooldownMs o) (lastNudgeRef (refs h))
              (nudgeTimes (snd (run (version refBased) o evs h))).
Proof.
  induction evs as [| ev evs IH]; intros S h; [exact I |].
  cbn [forallb] in S. apply andb_prop in S as [S1 S2].
  rewrite run_cons. cbn [snd]. rewrite nudgeTimes_app.
  specialize (IH S2 (fst (step (version refBased) o ev h))).
  destruct (nudge_gap_step refBased o ev h S1) as [[E1 E2] | (now & E1 & E2 & G)].
  - rewrite E1. cbn [app]. now rewrite <- E2.
  - rewrite E1. cbn [app spacedAfter]. rewrite E2 in IH. auto.
Qed.

Lemma spacedAfter_spaced gap last ts :
  spacedAfter gap last ts -> spaced gap ts.
Proof.
  revert last. induction ts as [| t ts IH]; intros last H; [exact I |].
  destruct H as [_ H]. cbn [spaced]. split; [| eauto].
  destruct ts; [exact I | apply H].
Qed.

(** Within a session of either version, successive nudges are more than
    [nudgeCooldownMs] apart. *)
Lemma nudges_spaced refBased o evs h :
  forallb inSession evs = true ->
  spaced (nudgeCooldownMs o)
         (nudgeTimes (snd (run (version refBased) o evs h))).
Proof.
  intros S. eapply spacedAfter_spaced, nudge_gap_run, S.
Qed.

(** ** The counter of the ref-based version *)

Lemma counter_inv_loop o now h :
  counterInv o h -> counterInv o (fst (RefVersion.loop o now h)).
Proof.
  unfold counterInv. intros (A & B & C & D).
  loop_cases; repeat split; intros; try congruence; try lia; auto.
Qed.

Lemma counter_inv_reachable o b t0 evs :
  counterInv o (fst (run (version true) o evs (mount (version true) b t0))).
Proof.
  apply run_preserves.
  - intros now h H. exact H.
  - intros now h. apply counter_inv_loop.
  - intros h H. exact H.
  - intros b0 h (A & B & C & D). unfold counterInv.
    destruct b0; version_simpl; unfold RefVersion.effect;
      repeat split; intros; hook_simpl; try congruence; try lia; auto.
  - unfold counterInv. destruct b; version_simpl; unfold RefVersion.effect;
      repeat split; intros; hook_simpl; try congruence; try lia; auto.
Qed.

(** In the ref-based version the counter never exceeds [maxNudges]. *)
Lemma ref_nudges_bounded o b t0 evs :
  let h := fst (run (version true) o evs (mount (version true) b t0)) in
  (nudges (state h) <= maxNudges o)%nat
  /\ (nudgesRef (refs h) <= maxNudges o)%nat.
Proof.
  destruct (counter_inv_reachable o b t0 evs) as (A & B & _).
  cbv zeta. split; [rewrite B |]; exact A.
Qed.

(** In the ref-based version a frame arms the final warning exactly when
    it brings the counter to [maxNudges], and it then raises the banner. *)
Lemma ref_arming_at_max o b t0 evs now :
  let h := fst (run (version true) o evs (mount (version true) b t0)) in
  let r := RefVersion.loop o now h in
  (armedFinalRef (refs h) = false /\ armedFinalRef (refs (fst r)) = true
   <-> nudges (state h) <> maxNudges o
       /\ nudges (state (fst r)) = maxNudges o)
  /\ (armedFinalRef (refs h) = false /\ armedFinalRef (refs (fst r)) = true
      <-> existsb isFinalWarning (snd r) = true)
  /\ (armedFinalRef (refs h) = true -> armedFinalRef (refs (fst r)) = true).
Proof.
  cbv zeta.
  destruct (counter_inv_reachable o b t0 evs) as (A & B & C & D).
  set (h := fst (run (version true) o evs (mount (version true) b t0))) in *.
  clearbody h.
  loop_cases; cbn [existsb isFinalWarning app orb];
    repeat split; intros;
    repeat match goal with H : _ /\ _ |- _ => destruct H end;
    try congruence; try lia; auto.
  all: try (destruct (armedFinalRef (refs h)) eqn:?; [specialize (C eq_refl) |
            specialize (D eq_refl)]; try congruence; try lia).
Qed.
(** ** Running the version that reads the render's cells *)

Lemma hysteresis_unarmed o s h :
  armedFinalRef (refs h) = false -> hysteresis o s h = h.
Proof. intros A. unfold hysteresis. now rewrite A. Qed.

Lemma strike_unarmed o s h :
  armedFinalRef (refs h) = false -> strike o s h = (h, []).
Proof. intros A. unfold strike. now rewrite A. Qed.

Lemma state_nudge_fires o now s h :
  finalStrike (render h) = false ->
  showFinalWarning (render h) = false ->
  s < nudgeThreshold o ->
  (nudges (render h) + 1 < maxNudges o)%nat ->
  nudgeCooldownMs o < now - lastNudgeRef (refs h) ->
  StateVersion.nudge o now s h = (StateVersion.emit now h, [SigNudge now]).
Proof.
  intros F W S N C. unfold StateVersion.nudge. rewrite F, W.
  rewrite (proj2 (Rltb_true _ _) S).
  rewrite (proj2 (Nat.ltb_lt _ _)) by lia.
  cbn [negb andb]. cbv zeta.
  rewrite (proj2 (Rgtb_true _ _) C).
  change (render (StateVersion.emit now h)) with (render h).
  rewrite (proj2 (Nat.leb_gt _ _)) by lia.
  reflexivity.
Qed.

(** A frame of a hook mounted enabled, with the default options, long
    after the last activity and the last nudge: a nudge is raised and
    counted, and nothing else changes that the next frame reads. *)
Lemma state_frame_nudges now h :
  staleSession h ->
  65000 <= now ->
  15000 < now - lastNudgeRef (refs h) ->
  let r := step (version false) StateVersion.defaults (EvFrame now) h in
  staleSession (fst r)
  /\ snd r = [SigNudge now]
  /\ nudges (state (fst r)) = (nudges (state h) + 1)%nat
  /\ lastNudgeRef (refs (fst r)) = now
  /\ showFinalWarning (state (fst r)) = showFinalWarning (state h).
Proof.
  intros (En & Re & Ar & La) T C. cbv zeta.
  cbn [step]. rewrite En. version_simpl. unfold StateVersion.loop. cbv zeta.
  rewrite La.
  assert (decay StateVersion.defaults (now - 0)
          < nudgeThreshold StateVersion.defaults) as S.
  { eapply Rle_lt_trans.
    - apply (decay_after_half_lives StateVersion.defaults 2);
        cbn [StateVersion.defaults halfLifeMs graceMs INR]; lra.
    - cbn [StateVersion.defaults minScore nudgeThreshold pow].
      apply Rmax_lub_lt; lra. }
  set (s := decay StateVersion.defaults (now - 0)) in *.
  match goal with
  | |- context [StateVersion.nudge ?o ?t ?s0 ?h0] =>
      rewrite (state_nudge_fires o t s0 h0)
  end.
  - rewrite hysteresis_unarmed, strike_unarmed
      by (destruct (Rltb s _); hook_simpl; exact Ar).
    unfold staleSession.
    destruct (Rltb s _); hook_simpl; repeat split; auto.
  - destruct (Rltb s _); hook_simpl; now rewrite Re.
  - destruct (Rltb s _); hook_simpl; now rewrite Re.
  - exact S.
  - destruct (Rltb s _); hook_simpl; rewrite Re; cbn; lia.
  - destruct (Rltb s _); hook_simpl; cbn [StateVersion.defaults
      nudgeCooldownMs]; exact C.
Qed.

Lemma stale_session_mount : staleSession (mount (version false) true 0).
Proof. repeat split. Qed.

(** C4, on the version that reads the render's cells.  Mounted enabled at
    time 0 with its default options ([maxNudges = 2]) and left idle, the
    frames at 100 s, 200 s and 300 s each raise a nudge: the counter is at
    3. *)
Theorem state_version_nudges_exceed_max :
  let v := version false in
  let o := StateVersion.defaults in
  let r := run v o [EvFrame 100000; EvFrame 200000; EvFrame 300000]
               (mount v true 0) in
  maxNudges o = 2%nat
  /\ nudges (state (fst r)) = 3%nat
  /\ nudgeTimes (snd r) = [100000; 200000; 300000].
Proof.
  cbv zeta. rewrite !run_cons. cbn [run fst snd].
  set (h0 := mount (version false) true 0).
  destruct (state_frame_nudges 100000 h0) as (S1 & O1 & N1 & L1 & _);
    [apply stale_session_mount | lra | cbn; lra |].
  set (h1 := fst (step _ _ (EvFrame 100000) h0)) in *.
  destruct (state_frame_nudges 200000 h1) as (S2 & O2 & N2 & L2 & _);
    [assumption | lra | rewrite L1; lra |].
  set (h2 := fst (step _ _ (EvFrame 200000) h1)) in *.
  destruct (state_frame_nudges 300000 h2) as (S3 & O3 & N3 & L3 & _);
    [assumption | lra | rewrite L2; lra |].
  rewrite O1, O2, O3, N3, N2, N1. repeat split.
Qed.

(** C5, on the version that reads the render's cells.  In the same run the
    second nudge brings the counter to [maxNudges = 2], and neither the
    armed ref nor the banner cell becomes true, nor is the banner raised. *)
Theorem state_version_never_arms_at_max :
  let v := version false in
  let o := StateVersion.defaults in
  let r := run v o [EvFrame 100000; EvFrame 200000] (mount v true 0) in
  nudges (state (fst r)) = maxNudges o
  /\ armedFinalRef (refs (fst r)) = false
  /\ showFinalWarning (state (fst r)) = false
  /\ existsb isFinalWarning (snd r) = false.
Proof.
  cbv zeta. rewrite !run_cons. cbn [run fst snd].
  set (h0 := mount (version false) true 0).
  destruct (state_frame_nudges 100000 h0) as (S1 & O1 & N1 & L1 & W1);
    [apply stale_session_mount | lra | cbn; lra |].
  set (h1 := fst (step _ _ (EvFrame 100000) h0)) in *.
  destruct (state_frame_nudges 200000 h1) as (S2 & O2 & N2 & L2 & W2);
    [assumption | lra | rewrite L1; lra |].
  set (h2 := fst (step _ _ (EvFrame 200000) h1)) in *.
  rewrite O1, O2, N2, N1, W2, W1.
  destruct S2 as (_ & _ & A2 & _). rewrite A2. repeat split.
Qed.
(** ** A witness for the decay theorem *)

Lemma score_follows_half_life_decay_witness :
  let o := RefVersion.defaults in
  let t := 20000 in
  let t' := 35000 in
  let h := mount (version true) true 0 in
  (t <= graceMs o -> decay o t = 1)
  /\ (graceMs o < t ->
      decay o t
      = Rmax (minScore o) (exp (- ln 2 * (t - graceMs o) / halfLifeMs o)))
  /\ (t <= t' ->
      Rmax (minScore o) (exp (- ln 2 * (t' - graceMs o) / halfLifeMs o))
      <= Rmax (minScore o) (exp (- ln 2 * (t - graceMs o) / halfLifeMs o)))
  /\ (t <= t' -> decay o t' <= decay o t)
  /\ 0 <= decay o t <= 1
  /\ score (state (fst (loopOf (version true) o 20000 h)))
     = decay o (20000 - lastActRef (refs h))
  /\ (enabled h = true ->
      score (state (fst (step (version true) o (EvFrame 20000) h)))
      = decay o (20000 - lastActRef (refs h)))
  /\ 0 <= score (state (fst (run (version true) o [EvFrame 20000]
                               (mount (version true) true 0)))) <= 1.
Proof.
  apply (score_follows_half_life_decay
           RefVersion.defaults 20000 35000 true true 0 [EvFrame 20000]
           20000 (mount (version true) true 0)).
  - cbn. lra.
  - cbn. lra.
Defined.

(** ** Leaving the monitored phase *)

(** C7, as amended.  When [enabled] becomes false on an enabled hook: the
    ref-based version puts every state cell back to its initial value
    ([score = 1], [worstScore = 1], [nudges = 0], the three flags false)
    and the counter, armed, hysteresis and last-nudge refs back to theirs;
    the other version only hides the nudge toast and keeps every other
    state cell. *)
Theorem disabling_resets_ref_version_only (o : AttnOpts) (h : Hook) :
  enabled h = true ->
  let h1 := fst (step (version true) o (EvEnabled false) h) in
  let h2 := fst (step (version false) o (EvEnabled false) h) in
  (state h1 = initialState
   /\ nudgesRef (refs h1) = 0%nat
   /\ armedFinalRef (refs h1) = false
   /\ hysteresisOkRef (refs h1) = true
   /\ lastNudgeRef (refs h1) = 0
   /\ enabled h1 = false)
  /\ (state h2 = state (setShowNudge false h)
      /\ enabled h2 = false).
Proof.
  intros En. cbv zeta. cbn [step fst]. rewrite En. cbn [Bool.eqb].
  version_simpl. unfold RefVersion.effect, StateVersion.effect. rewrite En.
  hook_simpl. repeat split.
Qed.

(** C7 as stated fails on the version that reads the render's cells: after
    one nudge, the end of the phase leaves the counter at 1 and the score
    below 1. *)
Lemma state_version_keeps_state_when_disabled :
  let v := version false in
  let r := run v StateVersion.defaults [EvFrame 100000; EvEnabled false]
               (mount v true 0) in
  enabled (fst r) = false
  /\ nudges (state (fst r)) = 1%nat
  /\ nudges (state (fst r)) <> nudges initialState
  /\ score (state (fst r)) < 1.
Proof.
  cbv zeta. rewrite !run_cons. cbn [run fst snd].
  set (h0 := mount (version false) true 0).
  destruct (state_frame_nudges 100000 h0) as (S1 & O1 & N1 & L1 & W1);
    [apply stale_session_mount | lra | cbn; lra |].
  pose proof (state_loop_score StateVersion.defaults 100000 h0) as Sc.
  assert (step (version false) StateVersion.defaults (EvFrame 100000) h0
          = StateVersion.loop StateVersion.defaults 100000 h0) as Eq
      by reflexivity.
  rewrite <- Eq in Sc.
  set (h1 := fst (step _ _ (EvFrame 100000) h0)) in *.
  destruct S1 as (En & _).
  cbn [step fst]. rewrite En. cbn [Bool.eqb]. version_simpl.
  unfold StateVersion.effect. rewrite En. hook_simpl.
  rewrite N1, Sc. repeat split.
  - cbn. lia.
  - eapply Rle_lt_trans.
    + apply (decay_after_half_lives StateVersion.defaults 2);
        cbn [StateVersion.defaults halfLifeMs graceMs INR lastActRef refs
             h0 mount version effectOf StateVersion.useWritingAttention
             StateVersion.effect start initialHook]; lra.
    + cbn [StateVersion.defaults minScore pow]. apply Rmax_lub_lt; lra.
Qed.

(** ** Activity *)

(** C8, as amended.  On an enabled hook of either version, an input, mouse
    move, mouse down, wheel or selection-change event, and a key-down with
    none of Meta, Ctrl and Alt held (Shift may be), sets [lastActRef] to the
    time of the event and the score cell to 1, whatever the score was; a
    key-down with Meta, Ctrl or Alt held changes nothing. *)
Theorem activity_marks_active
        (refBased : bool) (o : AttnOpts) (now : R) (e : KeyboardEvent)
        (ev : event) (h : Hook) :
  enabled h = true ->
  In ev [EvInput now; EvMouseMove now; EvMouseDown now; EvWheel now;
         EvSelectionChange now] ->
  let v := version refBased in
  let h' := fst (step v o ev h) in
  let k := fst (step v o (EvKeyDown e now) h) in
  (lastActRef (refs h') = now /\ score (state h') = 1
   /\ snd (step v o ev h) = [])
  /\ (if metaKey e || ctrlKey e || altKey e
      then k = h
      else lastActRef (refs k) = now /\ score (state k) = 1).
Proof.
  intros En Hin. cbv zeta. split.
  - cbn [In] in Hin.
    destruct Hin as [<- | [<- | [<- | [<- | [<- | []]]]]];
      cbn [step fst snd]; rewrite En; hook_simpl; auto.
  - cbn [step fst]. rewrite En. unfold key.
    destruct (metaKey e || ctrlKey e || altKey e); hook_simpl; auto.
Qed.

Lemma activity_marks_active_witness :
  let v := version true in
  let o := RefVersion.defaults in
  let e := mkKey false true false false in
  let h := mount v true 0 in
  let h' := fst (step v o (EvWheel 7) h) in
  let k := fst (step v o (EvKeyDown e 7) h) in
  (lastActRef (refs h') = 7 /\ score (state h') = 1
   /\ snd (step v o (EvWheel 7) h) = [])
  /\ (if metaKey e || ctrlKey e || altKey e
      then k = h
      else lastActRef (refs k) = 7 /\ score (state k) = 1).
Proof.
  apply (activity_marks_active
           true RefVersion.defaults 7 (mkKey false true false false)
           (EvWheel 7) (mount (version true) true 0)).
  - reflexivity.
  - cbn [In]. auto.
Defined.

(** C8 as stated fails on a key-down with only Shift held: a modifier is
    held, and the event is taken as activity. *)
Lemma shift_key_down_is_activity :
  let v := version true in
  let e := mkKey false false false true in
  let h := mount v true 0 in
  let k := fst (step v RefVersion.defaults (EvKeyDown e 7) h) in
  modifierHeld e = true
  /\ lastActRef (refs h) = 0
  /\ lastActRef (refs k) = 7
  /\ score (state k) = 1.
Proof. repeat split. Qed.
(** ** The compliance guard *)

Section Guard.
Import ComplianceGuard.
Variable o : Options.

Lemma checkNow_violations d g : violations (checkNow o d g) = violations g.
Proof. unfold checkNow. now destruct (suppressedRef g). Qed.

Lemma requestWakeLock_violations lock g :
  violations (requestWakeLock o lock g) = violations g.
Proof. unfold requestWakeLock. now destruct (enableWakeLock o && lock). Qed.

Lemma resume_violations lock d g :
  violations (resume o lock d g) = violations g
  /\ onViolation (resume o lock d g) = onViolation g.
Proof.
  unfold resume, requestWakeLock.
  destruct (enableWakeLock o && lock), (isCompliant o d); split; reflexivity.
Qed.

Lemma resume_outcome lock d g :
  needsAttention (resume o lock d g) = negb (isCompliant o d)
  /\ onResume (resume o lock d g)
     = (onResume g + if isCompliant o d then 1 else 0)%nat.
Proof.
  unfold resume, requestWakeLock.
  destruct (enableWakeLock o && lock), (isCompliant o d); cbn; split; lia.
Qed.

Lemma flagViolation_violations g :
  violations (flagViolation g)
  = (violations g + if negb (suppressedRef g) then 1 else 0)%nat.
Proof. unfold flagViolation. destruct (suppressedRef g); cbn; lia. Qed.

Lemma step_violations ev g :
  violations (step o ev g)
  = (violations g
     + if flags o ev && negb (suppressedRef g) then 1 else 0)%nat.
Proof.
  destruct ev; cbn [step flags andb];
    unfold onVis, onBlur, onFocus, onFS;
    try (destruct (negb (isCompliant o d)); cbn [andb];
         [apply flagViolation_violations |]);
    rewrite ?checkNow_violations, ?(proj1 (resume_violations _ _ _));
    try lia.
  - unfold onKey. destruct (5 <=? escapeCount g + 1)%nat; cbn; lia.
  - cbn. lia.
Qed.

Lemma step_flagging ev g :
  violations (step o ev g) = violations g
  \/ (flags o ev = true /\ suppressedRef g = false
      /\ step o ev g = flagViolation g).
Proof.
  destruct (flags o ev && negb (suppressedRef g)) eqn:F.
  - right. apply andb_prop in F as [F1 F2].
    apply negb_true_iff in F2. repeat split; try assumption.
    destruct ev; cbn [flags] in F1; try discriminate F1;
      cbn [step]; unfold onVis, onBlur, onFS; now rewrite F1.
  - left. rewrite step_violations, F. lia.
Qed.

End Guard.

(** C1, as amended.  Over any run of the compliance guard, [violations]
    grows by exactly the number of visibility-change, blur and
    fullscreen-change events whose handler finds the predicate false while
    the guard is not suppressed, whether or not the predicate had already
    failed before; no event adds more than one, and a poll tick or a focus
    event adds none. *)
Theorem violations_count_flagging_events
        (o : ComplianceGuard.Options) (evs : list ComplianceGuard.event)
        (ev : ComplianceGuard.event) (d : ComplianceGuard.Document)
        (g : ComplianceGuard.Guard) :
  ComplianceGuard.violations (ComplianceGuard.run o evs g)
  = (ComplianceGuard.violations g + ComplianceGuard.flagged o evs g)%nat
  /\ (ComplianceGuard.violations (ComplianceGuard.step o ev g)
      <= ComplianceGuard.violations g + 1)%nat
  /\ ComplianceGuard.violations
       (ComplianceGuard.step o (ComplianceGuard.Poll d) g)
     = ComplianceGuard.violations g
  /\ ComplianceGuard.violations
       (ComplianceGuard.step o (ComplianceGuard.Focus d) g)
     = ComplianceGuard.violations g.
Proof.
  repeat split.
  - revert g. induction evs as [| e evs IH]; intros g.
    + cbn. lia.
    + cbn [ComplianceGuard.run fold_left ComplianceGuard.flagged].
      change (fold_left _ evs ?x) with (ComplianceGuard.run o evs x).
      rewrite IH, step_violations. lia.
  - rewrite step_violations. destruct (_ && _); lia.
  - apply checkNow_violations.
  - apply checkNow_violations.
Qed.

(** C1 as stated fails both ways.  Leaving the tab fires a blur and then a
    visibility change: one passage from compliant to non-compliant, two
    violations.  A loss of focus that only the poll observes: one passage,
    no violation. *)
Lemma violations_are_not_transitions :
  let o := ComplianceGuard.mkOptions true true 0 in
  let ok := ComplianceGuard.mkDoc true true true in
  let unfocused := ComplianceGuard.mkDoc true false true in
  let hidden := ComplianceGuard.mkDoc false false true in
  let g0 := ComplianceGuard.mount o true ok in
  let evs := [ComplianceGuard.Blur unfocused;
              ComplianceGuard.VisibilityChange hidden] in
  let evs' := [ComplianceGuard.Poll unfocused] in
  ComplianceGuard.transitions o (ComplianceGuard.isCompliant o ok) evs = 1%nat
  /\ ComplianceGuard.violations (ComplianceGuard.run o evs g0) = 2%nat
  /\ ComplianceGuard.transitions o (ComplianceGuard.isCompliant o ok) evs'
     = 1%nat
  /\ ComplianceGuard.violations (ComplianceGuard.run o evs' g0) = 0%nat.
Proof. repeat split. Qed.

(** C9, as amended.  [resume] of [useComplianceGuard]: once the requests
    and the frame are over, [needsAttention] is false and [onResume] is
    called once if the predicate holds, and [needsAttention] is true and
    [onResume] is not called if it fails.  [resume] of [useAttentionGuard]
    makes no check: it clears [needsAttention] and calls [onAllowedResume]
    whatever the document. *)
Theorem resume_checks_compliance_guard_only
        (o : ComplianceGuard.Options) (lock : bool)
        (d : ComplianceGuard.Document) (g : ComplianceGuard.Guard)
        (o' : AttentionGuard.GuardOptions) (g' : AttentionGuard.Guard) :
  (ComplianceGuard.needsAttention (ComplianceGuard.resume o lock d g)
   = negb (ComplianceGuard.isCompliant o d)
   /\ ComplianceGuard.onResume (ComplianceGuard.resume o lock d g)
      = (ComplianceGuard.onResume g
         + if ComplianceGuard.isCompliant o d then 1 else 0)%nat)
  /\ (AttentionGuard.needsAttention (AttentionGuard.resume o' lock d g')
      = false
      /\ AttentionGuard.onAllowedResume (AttentionGuard.resume o' lock d g')
         = (AttentionGuard.onAllowedResume g' + 1)%nat).
Proof.
  split; [apply resume_outcome |].
  unfold AttentionGuard.resume, AttentionGuard.requestWakeLock.
  destruct (AttentionGuard.enableWakeLock o' && lock); split; reflexivity.
Qed.

(** C9 as stated fails on [useAttentionGuard]: the overlay is up after a
    blur, the fullscreen request is denied so the predicate still fails,
    and [resume] takes the overlay down and calls the callback. *)
Lemma attention_guard_resume_ignores_compliance :
  let o' := AttentionGuard.mkGuardOptions true in
  let d := ComplianceGuard.mkDoc true true false in
  let g := AttentionGuard.onBlur (AttentionGuard.mount o' true) in
  let r := AttentionGuard.resume o' true d g in
  ComplianceGuard.isCompliant (ComplianceGuard.mkOptions true true 0) d = false
  /\ AttentionGuard.needsAttention g = true
  /\ AttentionGuard.needsAttention r = false
  /\ AttentionGuard.onAllowedResume r = 1%nat.
Proof. repeat split. Qed.

(** C10.  In the compliance guard, an event that changes [violations] is a
    visibility-change, blur or fullscreen-change event on which the
    unsuppressed guard ran [flagViolation]; the poll's [checkNow] and
    [resume] leave [violations] (and the calls of [onViolation]) as they
    were; after [resume], [needsAttention] is true exactly when the
    predicate fails, so a failed [resume] keeps the overlay and adds no
    violation. *)
Theorem violations_changed_only_by_flagging
        (o : ComplianceGuard.Options) (ev : ComplianceGuard.event)
        (lock : bool) (d : ComplianceGuard.Document)
        (g : ComplianceGuard.Guard) :
  (ComplianceGuard.violations (ComplianceGuard.step o ev g)
   = ComplianceGuard.violations g
   \/ (ComplianceGuard.flags o ev = true
       /\ ComplianceGuard.suppressedRef g = false
       /\ ComplianceGuard.step o ev g = ComplianceGuard.flagViolation g))
  /\ ComplianceGuard.violations (ComplianceGuard.checkNow o d g)
     = ComplianceGuard.violations g
  /\ ComplianceGuard.onViolation (ComplianceGuard.checkNow o d g)
     = ComplianceGuard.onViolation g
  /\ ComplianceGuard.violations (ComplianceGuard.resume o lock d g)
     = ComplianceGuard.violations g
  /\ ComplianceGuard.onViolation (ComplianceGuard.resume o lock d g)
     = ComplianceGuard.onViolation g
  /\ ComplianceGuard.needsAttention (ComplianceGuard.resume o lock d g)
     = negb (ComplianceGuard.isCompliant o d).
Proof.
  split; [apply step_flagging |].
  split; [apply checkNow_violations |].
  split; [unfold ComplianceGuard.checkNow;
          now destruct (ComplianceGuard.suppressedRef g) |].
  split; [apply resume_violations |].
  split; [apply resume_violations | apply resume_outcome].
Qed.

(** * Further properties of the code *)

(** ** More on the decay curve *)

(** With a positive floor [minScore], the score computed by [loop] is
    never zero or negative, and it is never below the floor (nor below 1
    when the floor is set above 1), whatever the other options and the
    idle time. *)
Theorem decay_positive_and_floored (o : AttnOpts) (idle : R) :
  0 < minScore o ->
  0 < decay o idle /\ Rmin 1 (minScore o) <= decay o idle.
Proof.
  intros M.
  destruct (Rle_or_lt idle (graceMs o)) as [H | H].
  - rewrite decay_within_grace by assumption. split; [lra | apply Rmin_l].
  - rewrite decay_past_grace by assumption. split.
    + eapply Rlt_le_trans; [exact M | apply Rmax_l].
    + eapply Rle_trans; [apply Rmin_r | apply Rmax_l].
Qed.

Lemma decay_positive_and_floored_witness :
  0 < decay RefVersion.defaults 80000
  /\ Rmin 1 (minScore RefVersion.defaults) <= decay RefVersion.defaults 80000.
Proof.
  apply (decay_positive_and_floored RefVersion.defaults 80000).
  cbn. lra.
Defined.

(** Once the idle time exceeds the grace period by [k] half-lives, where
    [(1/2)^k] is at most half the floor [minScore], the score sits exactly
    on the floor. *)
Theorem decay_reaches_floor (o : AttnOpts) (k : nat) (idle : R) :
  0 < halfLifeMs o ->
  graceMs o < idle ->
  graceMs o + halfLifeMs o * INR k <= idle ->
  2 * (/ 2) ^ k <= minScore o ->
  decay o idle = minScore o.
Proof.
  intros Hh Hg Hk Hm.
  assert (0 < (/ 2) ^ k) as P by (apply pow_lt; lra).
  apply Rle_antisym.
  - eapply Rle_trans; [now apply (decay_after_half_lives o k) |].
    rewrite Rmax_left by lra. lra.
  - rewrite decay_past_grace by assumption. apply Rmax_l.
Qed.

Lemma decay_reaches_floor_witness :
  decay RefVersion.defaults 100000 = minScore RefVersion.defaults.
Proof.
  apply (decay_reaches_floor RefVersion.defaults 6 100000).
  - cbn. lra.
  - cbn. lra.
  - cbn [RefVersion.defaults graceMs halfLifeMs INR]. lra.
  - cbn [RefVersion.defaults minScore pow]. lra.
Defined.

(** ** The worst score *)

Lemma worst_inv_loop o now h :
  worstInv h -> worstInv (fst (RefVersion.loop o now h)).
Proof.
  unfold worstInv. intros [A B].
  pose proof (Rmin_l (worstScore (state h))
                     (decay o (now - lastActRef (refs h)))).
  pose proof (Rmin_r (worstScore (state h))
                     (decay o (now - lastActRef (refs h)))).
  loop_cases; split; lra.
Qed.

Lemma worst_inv_reachable o b t0 evs :
  worstInv (fst (run (version true) o evs (mount (version true) b t0))).
Proof.
  apply run_preserves.
  - intros now h [A B]. unfold worstInv. hook_simpl. lra.
  - intros now h. apply worst_inv_loop.
  - intros h H. exact H.
  - intros b0 h [A B]. unfold worstInv.
    destruct b0; version_simpl; unfold RefVersion.effect; hook_simpl; lra.
  - unfold worstInv.
    destruct b; version_simpl; unfold RefVersion.effect; hook_simpl; lra.
Qed.

Lemma worst_never_rises o w evs h :
  forallb inSession evs = true ->
  worstScore (state h) <= w ->
  worstScore (state (fst (run (version true) o evs h))) <= w.
Proof.
  intros S. revert h.
  apply (session_preserves (version true) o
           (fun h => worstScore (state h) <= w)); try assumption.
  - intros now h H. exact H.
  - intros now h H. version_simpl.
    pose proof (Rmin_l (worstScore (state h))
                       (decay o (now - lastActRef (refs h)))).
    loop_cases; lra.
  - intros h H. exact H.
Qed.

(** In the ref-based version, at every hook reached from a mount,
    [worstScore] is at most [score] and at most 1, and through the further
    events of a session it never rises: it is a running minimum of the
    scores the frames computed. *)
Theorem ref_worst_score_is_running_minimum
        (o : AttnOpts) (b : bool) (t0 : R) (evs evs' : list event) :
  forallb inSession evs' = true ->
  let v := version true in
  let h := fst (run v o evs (mount v b t0)) in
  worstScore (state h) <= score (state h)
  /\ worstScore (state h) <= 1
  /\ worstScore (state (fst (run v o evs' h))) <= worstScore (state h).
Proof.
  intros S v h.
  destruct (worst_inv_reachable o b t0 evs) as [A B].
  repeat split; try assumption.
  apply worst_never_rises; [assumption | lra].
Qed.

Lemma ref_worst_score_is_running_minimum_witness :
  let v := version true in
  let o := RefVersion.defaults in
  let h := fst (run v o [EvFrame 20000] (mount v true 0)) in
  worstScore (state h) <= score (state h)
  /\ worstScore (state h) <= 1
  /\ worstScore (state (fst (run v o [EvInput 20001; EvFrame 20002] h)))
     <= worstScore (state h).
Proof.
  apply (ref_worst_score_is_running_minimum
           RefVersion.defaults true 0 [EvFrame 20000]
           [EvInput 20001; EvFrame 20002]).
  reflexivity.
Defined.

(** In the version that reads the render's cells, [loop] compares the
    score with the [worstScore] of the render the effect closed over: in a
    session whose render holds 1, a frame scoring below 1 overwrites the
    cell with that score even when the cell held less, so the recorded
    worst score rises. *)
Theorem state_worst_score_can_rise (o : AttnOpts) (now : R) (h : Hook) :
  enabled h = true ->
  worstScore (render h) = 1 ->
  decay o (now - lastActRef (refs h)) < 1 ->
  worstScore (state h) < decay o (now - lastActRef (refs h)) ->
  let h' := fst (step (version false) o (EvFrame now) h) in
  worstScore (state h') = decay o (now - lastActRef (refs h))
  /\ worstScore (state h) < worstScore (state h').
Proof.
  intros En Re S W. cbv zeta. cbn [step]. rewrite En. version_simpl.
  assert (worstScore (state (fst (StateVersion.loop o now h)))
          = decay o (now - lastActRef (refs h))) as E.
  { unfold StateVersion.loop. cbv zeta.
    change (render (setScore (decay o (now - lastActRef (refs h))) h))
      with (render h).
    rewrite Re, (proj2 (Rltb_true _ _) S). loop_cases; reflexivity. }
  rewrite E. split; [reflexivity | assumption].
Qed.

Lemma state_worst_score_can_rise_witness :
  let o := RefVersion.defaults in
  let h := setWorstScore (fun _ => 0.25) (start (initialHook 0)) in
  let h' := fst (step (version false) o (EvFrame 20000) h) in
  worstScore (state h') = decay o (20000 - lastActRef (refs h))
  /\ worstScore (state h) < worstScore (state h').
Proof.
  assert (decay RefVersion.defaults (20000 - 0) = 0.5) as D.
  { replace (20000 - 0) with 20000 by lra. apply decay_scenario. }
  apply (state_worst_score_can_rise
           RefVersion.defaults 20000
           (setWorstScore (fun _ => 0.25) (start (initialHook 0)))).
  - reflexivity.
  - reflexivity.
  - hook_simpl. rewrite D. lra.
  - hook_simpl. rewrite D. lra.
Defined.

(** ** Nudges *)

Lemma nudges_spaced_witness :
  spaced (nudgeCooldownMs RefVersion.defaults)
         (nudgeTimes (snd (run (version true) RefVersion.defaults
                               [EvFrame 100000; EvInput 100001;
                                EvFrame 200000]
                               (mount (version true) true 0)))).
Proof.
  apply (nudges_spaced true RefVersion.defaults
           [EvFrame 100000; EvInput 100001; EvFrame 200000]
           (mount (version true) true 0)).
  reflexivity.
Defined.

Lemma armed_step_quiet o ev h :
  inSession ev = true ->
  armedFinalRef (refs h) = true ->
  let r := step (version true) o ev h in
  armedFinalRef (refs (fst r)) = true
  /\ nudgeTimes (snd r) = []
  /\ existsb isFinalWarning (snd r) = false
  /\ nudges (state (fst r)) = nudges (state h)
  /\ nudgesRef (refs (fst r)) = nudgesRef (refs h).
Proof.
  intros S A. destruct ev; try discriminate S; cbn [step].
  - unfold key. destruct (enabled h); [destruct (_ || _) |];
      hook_simpl; auto.
  - destruct (enabled h); hook_simpl; auto.
  - destruct (enabled h); hook_simpl; auto.
  - destruct (enabled h); hook_simpl; auto.
  - destruct (enabled h); hook_simpl; auto.
  - destruct (enabled h); hook_simpl; auto.
  - destruct (enabled h); [| now auto]. version_simpl.
    loop_cases; cbn [app nudgeTimes existsb isFinalWarning orb];
      try congruence; auto.
  - hook_simpl. auto.
Qed.

(** In the ref-based version, once the final warning is armed, the rest of
    the session raises no nudge and no second banner, the counter keeps
    its value and the warning stays armed. *)
Theorem ref_armed_session_raises_no_nudge
        (o : AttnOpts) (evs : list event) (h : Hook) :
  forallb inSession evs = true ->
  armedFinalRef (refs h) = true ->
  let r := run (version true) o evs h in
  armedFinalRef (refs (fst r)) = true
  /\ nudgeTimes (snd r) = []
  /\ existsb isFinalWarning (snd r) = false
  /\ nudges (state (fst r)) = nudges (state h)
  /\ nudgesRef (refs (fst r)) = nudgesRef (refs h).
Proof.
  revert h. induction evs as [| ev evs IH]; intros h S A.
  - cbn. auto.
  - cbn [forallb] in S. apply andb_prop in S as [S1 S2].
    destruct (armed_step_quiet o ev h S1 A) as (A1 & B1 & C1 & D1 & E1).
    destruct (IH _ S2 A1) as (A2 & B2 & C2 & D2 & E2).
    cbv zeta. rewrite run_cons. cbn [fst snd].
    rewrite nudgeTimes_app, existsb_app, B1, B2, C1, C2.
    repeat split; try assumption; congruence.
Qed.

Lemma ref_armed_session_raises_no_nudge_witness :
  let o := RefVersion.defaults in
  let h := armFinal (start (initialHook 0)) in
  let r := run (version true) o [EvFrame 100000; EvFrame 200000] h in
  armedFinalRef (refs (fst r)) = true
  /\ nudgeTimes (snd r) = []
  /\ existsb isFinalWarning (snd r) = false
  /\ nudges (state (fst r)) = nudges (state h)
  /\ nudgesRef (refs (fst r)) = nudgesRef (refs h).
Proof.
  apply (ref_armed_session_raises_no_nudge
           RefVersion.defaults [EvFrame 100000; EvFrame 200000]
           (armFinal (start (initialHook 0)))).
  - reflexivity.
  - reflexivity.
Defined.

(** ** Sessions of the ref-based version *)

Lemma fresh_inv_step o ev h :
  freshInv h -> freshInv (fst (step (version true) o ev h)).
Proof.
  unfold freshInv. intros (R0 & D).
  destruct ev; cbn [step fst].
  - destruct (Bool.eqb b (enabled h)) eqn:Eb; [now auto |].
    destruct b; version_simpl; unfold RefVersion.effect.
    + destruct D as [En | (St & _)].
      * rewrite En in Eb. discriminate Eb.
      * hook_simpl. auto.
    + destruct (enabled h); hook_simpl; split; auto; right; repeat split.
  - destruct D as [En | D]; [rewrite En | ].
    + unfold key. destruct (_ || _); hook_simpl; auto.
    + destruct (enabled h) eqn:En; [| now auto].
      unfold key. destruct (_ || _); hook_simpl; auto.
  - destruct (enabled h) eqn:En; hook_simpl; intuition congruence.
  - destruct (enabled h) eqn:En; hook_simpl; intuition congruence.
  - destruct (enabled h) eqn:En; hook_simpl; intuition congruence.
  - destruct (enabled h) eqn:En; hook_simpl; intuition congruence.
  - destruct (enabled h) eqn:En; hook_simpl; intuition congruence.
  - destruct (enabled h) eqn:En; [| cbn [fst]; intuition congruence].
    destruct (loop_keeps true o now h) as (_ & Rk & Ek).
    version_simpl. rewrite Rk, Ek. auto.
  - split; [exact R0 |]. destruct D as [En | (St & D)]; [left; exact En |].
    right. split; [| exact D]. hook_simpl. rewrite St. reflexivity.
Qed.

Lemma fresh_inv_reachable o b t0 evs :
  freshInv (fst (run (version true) o evs (mount (version true) b t0))).
Proof.
  assert (freshInv (mount (version true) b t0)) as H0.
  { unfold freshInv. destruct b; version_simpl; unfold RefVersion.effect;
      hook_simpl; split; auto. right. repeat split. }
  revert H0. generalize (mount (version true) b t0).
  induction evs as [| ev evs IH]; intros h H; [exact H |].
  rewrite run_cons. cbn [fst]. apply IH, fresh_inv_step, H.
Qed.

(** In the ref-based version every session starts from the initial cells:
    at any hook reached from a mount, the render the effect closed over is
    the initial one (so the [finalStrike] that [loop] reads is false), and
    a disabled hook holds the initial cells, counter, armed, hysteresis
    and last-nudge refs. *)
Theorem ref_sessions_start_fresh
        (o : AttnOpts) (b : bool) (t0 : R) (evs : list event) :
  let h := fst (run (version true) o evs (mount (version true) b t0)) in
  render h = initialState
  /\ finalStrike (render h) = false
  /\ (enabled h = true
      \/ (state h = initialState
          /\ nudgesRef (refs h) = 0%nat
          /\ armedFinalRef (refs h) = false
          /\ hysteresisOkRef (refs h) = true
          /\ lastNudgeRef (refs h) = 0)).
Proof.
  cbv zeta. destruct (fresh_inv_reachable o b t0 evs) as (R0 & D).
  repeat split; try assumption. now rewrite R0.
Qed.

Lemma strike_fires o s h :
  armedFinalRef (refs h) = true ->
  finalStrike (render h) = false ->
  hysteresisOkRef (refs h) = true ->
  s < finalThreshold o ->
  strike o s h = (setHysteresisOkRef false (setFinalStrike true h), [SigStrike]).
Proof.
  intros A F Hy S. unfold strike.
  now rewrite A, F, Hy, (proj2 (Rltb_true _ _) S).
Qed.

(** In the ref-based version, on an enabled hook whose effect closed over
    a render without strike (every reachable one), with the final warning
    armed and the hysteresis flag set, a frame whose score is below
    [finalThreshold] sets [finalStrike], emits the strike, raises no nudge
    and clears the hysteresis flag. *)
Theorem ref_ready_dip_strikes (o : AttnOpts) (now : R) (h : Hook) :
  enabled h = true ->
  finalStrike (render h) = false ->
  armedFinalRef (refs h) = true ->
  hysteresisOkRef (refs h) = true ->
  decay o (now - lastActRef (refs h)) < finalThreshold o ->
  let r := step (version true) o (EvFrame now) h in
  finalStrike (state (fst r)) = true
  /\ snd r = [SigStrike]
  /\ hysteresisOkRef (refs (fst r)) = false
  /\ armedFinalRef (refs (fst r)) = true.
Proof.
  intros En F A Hy S. cbv zeta. cbn [step]. rewrite En. version_simpl.
  unfold RefVersion.loop. cbv zeta.
  set (s := decay o (now - lastActRef (refs h))) in *.
  set (h0 := setWorstScore (fun prev => Rmin prev s) (setScore s h)).
  destruct (ref_nudge_cases o now s h0)
    as [E | (A0 & _)]; [| subst h0; hook_simpl; congruence].
  rewrite E.
  destruct (hysteresis_cases o s h0) as [E1 | (_ & G & _)]; [| lra].
  rewrite E1.
  rewrite (strike_fires o s h0) by (subst h0; hook_simpl; assumption).
  subst h0. hook_simpl. repeat split; assumption.
Qed.

Lemma ref_ready_dip_strikes_witness :
  let o := RefVersion.defaults in
  let h := setHysteresisOkRef true (armFinal (start (initialHook 0))) in
  let r := step (version true) o (EvFrame 80000) h in
  finalStrike (state (fst r)) = true
  /\ snd r = [SigStrike]
  /\ hysteresisOkRef (refs (fst r)) = false
  /\ armedFinalRef (refs (fst r)) = true.
Proof.
  apply (ref_ready_dip_strikes
           RefVersion.defaults 80000
           (setHysteresisOkRef true (armFinal (start (initialHook 0))))).
  - reflexivity.
  - reflexivity.
  - reflexivity.
  - reflexivity.
  - hook_simpl. eapply Rle_lt_trans.
    + apply (decay_after_half_lives RefVersion.defaults 5);
        cbn [RefVersion.defaults halfLifeMs graceMs INR]; lra.
    + cbn [RefVersion.defaults minScore finalThreshold pow].
      apply Rmax_lub_lt; lra.
Defined.

(** In the ref-based version, leaving and re-entering the monitored phase
    restores the initial cells but keeps the time of the last activity:
    the first frame of the new session scores the idle time counted from
    the last activity of the previous one. *)
Theorem ref_reentry_keeps_last_activity (o : AttnOpts) (now : R) (h : Hook) :
  enabled h = true ->
  let v := version true in
  let h1 := fst (run v o [EvEnabled false; EvEnabled true] h) in
  let h2 := fst (step v o (EvFrame now) h1) in
  state h1 = initialState
  /\ enabled h1 = true
  /\ lastActRef (refs h1) = lastActRef (refs h)
  /\ score (state h2) = decay o (now - lastActRef (refs h)).
Proof.
  intros En. cbv zeta. rewrite !run_cons. cbn [run fst step]. rewrite En.
  cbn [Bool.eqb]. version_simpl. unfold RefVersion.effect. rewrite En.
  hook_simpl. cbn [Bool.eqb]. hook_simpl.
  repeat split. rewrite ref_loop_score. reflexivity.
Qed.

Lemma ref_reentry_keeps_last_activity_witness :
  let v := version true in
  let o := RefVersion.defaults in
  let h := mount v true 0 in
  let h1 := fst (run v o [EvEnabled false; EvEnabled true] h) in
  let h2 := fst (step v o (EvFrame 20000) h1) in
  state h1 = initialState
  /\ enabled h1 = true
  /\ lastActRef (refs h1) = lastActRef (refs h)
  /\ score (state h2) = decay o (20000 - lastActRef (refs h)).
Proof.
  apply (ref_reentry_keeps_last_activity
           RefVersion.defaults 20000 (mount (version true) true 0)).
  reflexivity.
Defined.

(** ** What activity leaves alone *)

(** In either version, an event of the six activity listeners touches
    nothing but [lastActRef] and the score cell: it emits no signal and
    leaves the nudge counter, the worst score, the toast, the banner, the
    strike, the other refs and the closed-over render as they were. *)
Theorem activity_keeps_escalation
        (refBased : bool) (o : AttnOpts) (ev : event) (h : Hook) :
  isActivity ev = true ->
  let r := step (version refBased) o ev h in
  snd r = []
  /\ nudges (state (fst r)) = nudges (state h)
  /\ worstScore (state (fst r)) = worstScore (state h)
  /\ showNudge (state (fst r)) = showNudge (state h)
  /\ showFinalWarning (state (fst r)) = showFinalWarning (state h)
  /\ finalStrike (state (fst r)) = finalStrike (state h)
  /\ lastNudgeRef (refs (fst r)) = lastNudgeRef (refs h)
  /\ nudgesRef (refs (fst r)) = nudgesRef (refs h)
  /\ armedFinalRef (refs (fst r)) = armedFinalRef (refs h)
  /\ hysteresisOkRef (refs (fst r)) = hysteresisOkRef (refs h)
  /\ render (fst r) = render h
  /\ enabled (fst r) = enabled h.
Proof.
  intros A. destruct ev; try discriminate A; cbv zeta; cbn [step fst snd];
    destruct (enabled h) eqn:En; unfold key;
    try destruct (metaKey e || ctrlKey e || altKey e);
    hook_simpl; repeat split; congruence.
Qed.

Lemma activity_keeps_escalation_witness :
  let h := armFinal (start (initialHook 0)) in
  let r := step (version true) RefVersion.defaults (EvMouseMove 9) h in
  snd r = []
  /\ nudges (state (fst r)) = nudges (state h)
  /\ worstScore (state (fst r)) = worstScore (state h)
  /\ showNudge (state (fst r)) = showNudge (state h)
  /\ showFinalWarning (state (fst r)) = showFinalWarning (state h)
  /\ finalStrike (state (fst r)) = finalStrike (state h)
  /\ lastNudgeRef (refs (fst r)) = lastNudgeRef (refs h)
  /\ nudgesRef (refs (fst r)) = nudgesRef (refs h)
  /\ armedFinalRef (refs (fst r)) = armedFinalRef (refs h)
  /\ hysteresisOkRef (refs (fst r)) = hysteresisOkRef (refs h)
  /\ render (fst r) = render h
  /\ enabled (fst r) = enabled h.
Proof.
  apply (activity_keeps_escalation
           true RefVersion.defaults (EvMouseMove 9)
           (armFinal (start (initialHook 0)))).
  reflexivity.
Defined.

(** ** More on the compliance guard *)

Section GuardRuns.
Import ComplianceGuard.
Variable o : Options.

Lemma run_cons_guard ev evs g :
  run o (ev :: evs) g = run o evs (step o ev g).
Proof. reflexivity. Qed.

Lemma run_app_guard evs evs' g :
  run o (evs ++ evs') g = run o evs' (run o evs g).
Proof. apply fold_left_app. Qed.

Lemma run_violations evs g :
  violations (run o evs g) = (violations g + flagged o evs g)%nat.
Proof.
  revert g. induction evs as [| ev evs IH]; intros g.
  - cbn. lia.
  - rewrite run_cons_guard, IH, step_violations. cbn [flagged]. lia.
Qed.

Lemma step_log ev g :
  onViolation (step o ev g)
  = onViolation g
    ++ (if flags o ev && negb (suppressedRef g)
        then [(violations g + 1)%nat] else []).
Proof.
  destruct (step_flagging o ev g) as [E | (F & S & E)].
  - assert (flags o ev && negb (suppressedRef g) = false) as N.
    { destruct (flags o ev && negb (suppressedRef g)) eqn:X; [| reflexivity].
      rewrite step_violations, X in E. lia. }
    rewrite N, app_nil_r.
    destruct ev; cbn [step flags] in *;
      unfold onVis, onBlur, onFocus, onFS, checkNow, flagViolation,
             onKey, escapeTimeout in *;
      try (destruct (negb (isCompliant o d)); cbn [andb] in N);
      try (destruct (suppressedRef g); try discriminate N; reflexivity);
      try (destruct (5 <=? escapeCount g + 1)%nat; reflexivity);
      try reflexivity.
    all: apply resume_violations.
  - rewrite E, F, S. unfold flagViolation. rewrite S. reflexivity.
Qed.

Lemma run_log evs g :
  onViolation (run o evs g)
  = onViolation g ++ seq (violations g + 1) (flagged o evs g).
Proof.
  revert g. induction evs as [| ev evs IH]; intros g.
  - cbn. now rewrite app_nil_r.
  - rewrite run_cons_guard, IH, step_log, step_violations. cbn [flagged].
    destruct (flags o ev && negb (suppressedRef g)).
    + rewrite <- app_assoc. cbn [app Nat.add seq].
      now replace (violations g + 1 + 1)%nat with (S (violations g + 1))
        by lia.
    + now rewrite app_nil_r, Nat.add_0_r.
Qed.

Lemma step_suppressed ev g :
  suppressedRef g = true ->
  suppressedRef (step o ev g) = true
  /\ violations (step o ev g) = violations g
  /\ onViolation (step o ev g) = onViolation g.
Proof.
  intros S. split.
  - destruct ev; cbn [step];
      unfold onVis, onBlur, onFocus, onFS, checkNow, flagViolation,
             onKey, escapeTimeout, resume, requestWakeLock;
      rewrite ?S;
      repeat match goal with
        | |- context [if ?c then _ else _] => destruct c
        end; cbn; auto.
  - rewrite step_violations, step_log, S, andb_false_r, app_nil_r.
    split; [lia | reflexivity].
Qed.

Lemma escape_presses n :
  forall g,
  (escapeCount g < 5)%nat ->
  let g' := run o (repeat EscapeKey n) g in
  suppressedRef g' = suppressedRef g || (5 <=? escapeCount g + n)%nat
  /\ needsAttention g'
     = needsAttention g && negb (5 <=? escapeCount g + n)%nat
  /\ (escapeCount g' < 5)%nat
  /\ violations g' = violations g.
Proof.
  induction n as [| n IH]; intros g C.
  - cbn [repeat]. cbv zeta. cbn [run fold_left].
    rewrite (proj2 (Nat.leb_gt _ _)) by lia.
    now rewrite orb_false_r, andb_true_r.
  - cbn [repeat]. cbv zeta. rewrite run_cons_guard. cbn [step].
    destruct (5 <=? escapeCount g + 1)%nat eqn:E.
    + assert (suppressedRef (onKey g) = true
              /\ needsAttention (onKey g) = false
              /\ escapeCount (onKey g) = 0%nat
              /\ violations (onKey g) = violations g) as (S0 & N0 & K0 & V0)
        by (unfold onKey; rewrite E; repeat split).
      destruct (IH (onKey g)) as (S1 & N1 & K1 & V1); [lia |].
      rewrite S1, N1, V1, S0, N0, V0. apply Nat.leb_le in E.
      rewrite (proj2 (Nat.leb_le 5 (escapeCount g + S n))) by lia.
      rewrite orb_true_r, andb_false_r. repeat split. exact K1.
    + assert (suppressedRef (onKey g) = suppressedRef g
              /\ needsAttention (onKey g) = needsAttention g
              /\ escapeCount (onKey g) = (escapeCount g + 1)%nat
              /\ violations (onKey g) = violations g) as (S0 & N0 & K0 & V0)
        by (unfold onKey; rewrite E; repeat split).
      apply Nat.leb_gt in E.
      destruct (IH (onKey g)) as (S1 & N1 & K1 & V1); [lia |].
      rewrite S1, N1, V1, S0, N0, V0, K0.
      replace (escapeCount g + 1 + n)%nat with (escapeCount g + S n)%nat
        by lia.
      repeat split. exact K1.
Qed.

End GuardRuns.

(** Over any run of the compliance guard, [onViolation] is called once for
    each new count, in increasing order: the calls made during the run
    carry the counts from the old [violations + 1] up to the new
    [violations], which is never less than the old one. *)
Theorem violation_callback_reports_each_count
        (o : ComplianceGuard.Options) (evs : list ComplianceGuard.event)
        (g : ComplianceGuard.Guard) :
  let g' := ComplianceGuard.run o evs g in
  (ComplianceGuard.violations g <= ComplianceGuard.violations g')%nat
  /\ ComplianceGuard.onViolation g'
     = ComplianceGuard.onViolation g
       ++ seq (ComplianceGuard.violations g + 1)
              (ComplianceGuard.violations g' - ComplianceGuard.violations g).
Proof.
  cbv zeta. rewrite run_log, run_violations. split; [lia |].
  now replace (ComplianceGuard.violations g + ComplianceGuard.flagged o evs g
               - ComplianceGuard.violations g)%nat
    with (ComplianceGuard.flagged o evs g) by lia.
Qed.

(** While the guard is not suppressed, every handler that reads the
    document (visibility change, blur, focus, fullscreen change, poll,
    resume) leaves [needsAttention] true exactly when the predicate fails
    on the document it read. *)
Theorem overlay_follows_last_observation
        (o : ComplianceGuard.Options) (ev : ComplianceGuard.event)
        (d : ComplianceGuard.Document) (g : ComplianceGuard.Guard) :
  ComplianceGuard.suppressedRef g = false ->
  ComplianceGuard.observed ev = Some d ->
  ComplianceGuard.needsAttention (ComplianceGuard.step o ev g)
  = negb (ComplianceGuard.isCompliant o d).
Proof.
  intros S O.
  destruct ev; cbn [ComplianceGuard.observed] in O; inversion O; subst;
    cbn [ComplianceGuard.step];
    unfold ComplianceGuard.onVis, ComplianceGuard.onBlur,
           ComplianceGuard.onFocus, ComplianceGuard.onFS,
           ComplianceGuard.checkNow, ComplianceGuard.flagViolation;
    rewrite ?S;
    try (destruct (ComplianceGuard.isCompliant o d); reflexivity).
  apply resume_outcome.
Qed.

Lemma overlay_follows_last_observation_witness :
  let o := ComplianceGuard.mkOptions true true 0 in
  let d := ComplianceGuard.mkDoc true false true in
  let g := ComplianceGuard.mount o true (ComplianceGuard.mkDoc true true true) in
  ComplianceGuard.needsAttention
    (ComplianceGuard.step o (ComplianceGuard.Poll d) g)
  = negb (ComplianceGuard.isCompliant o d).
Proof.
  apply (overlay_follows_last_observation
           (ComplianceGuard.mkOptions true true 0)
           (ComplianceGuard.Poll (ComplianceGuard.mkDoc true false true))
           (ComplianceGuard.mkDoc true false true)
           (ComplianceGuard.mount (ComplianceGuard.mkOptions true true 0) true
              (ComplianceGuard.mkDoc true true true))).
  - reflexivity.
  - reflexivity.
Defined.

(** Once the developer escape has suppressed the guard, it stays
    suppressed: no run changes [violations] or calls [onViolation] again,
    a focus event or a poll tick clears [needsAttention], and a
    visibility-change, blur or fullscreen-change event clears it when the
    document is compliant and leaves it alone otherwise.  [resume] does
    not look at the suppression: it still raises [needsAttention] when the
    predicate fails. *)
Theorem suppressed_guard_stops_counting
        (o : ComplianceGuard.Options) (evs : list ComplianceGuard.event)
        (ev : ComplianceGuard.event) (g : ComplianceGuard.Guard) :
  ComplianceGuard.suppressedRef g = true ->
  let g' := ComplianceGuard.run o evs g in
  ComplianceGuard.suppressedRef g' = true
  /\ ComplianceGuard.violations g' = ComplianceGuard.violations g
  /\ ComplianceGuard.onViolation g' = ComplianceGuard.onViolation g
  /\ match ev with
     | ComplianceGuard.Resume _ d =>
         ComplianceGuard.needsAttention (ComplianceGuard.step o ev g)
         = negb (ComplianceGuard.isCompliant o d)
     | ComplianceGuard.EscapeKey | ComplianceGuard.EscapeTimeout => True
     | ComplianceGuard.Focus _ | ComplianceGuard.Poll _ =>
         ComplianceGuard.needsAttention (ComplianceGuard.step o ev g) = false
     | ComplianceGuard.VisibilityChange d | ComplianceGuard.Blur d
     | ComplianceGuard.FullscreenChange d =>
         ComplianceGuard.needsAttention (ComplianceGuard.step o ev g)
         = ComplianceGuard.needsAttention g
           && negb (ComplianceGuard.isCompliant o d)
     end.
Proof.
  intros S. cbv zeta.
  assert (ComplianceGuard.suppressedRef (ComplianceGuard.run o evs g) = true
          /\ ComplianceGuard.violations (ComplianceGuard.run o evs g)
             = ComplianceGuard.violations g
          /\ ComplianceGuard.onViolation (ComplianceGuard.run o evs g)
             = ComplianceGuard.onViolation g) as H.
  { revert g S. induction evs as [| e evs IH]; intros g S; [now auto |].
    rewrite run_cons_guard.
    destruct (step_suppressed o e g S) as (S1 & V1 & L1).
    destruct (IH _ S1) as (S2 & V2 & L2). repeat split; congruence. }
  destruct H as (A & B & C). repeat split; try assumption.
  destruct ev; cbn [ComplianceGuard.step]; try exact I;
    unfold ComplianceGuard.onVis, ComplianceGuard.onBlur,
           ComplianceGuard.onFocus, ComplianceGuard.onFS,
           ComplianceGuard.checkNow, ComplianceGuard.flagViolation;
    rewrite ?S;
    try (destruct (ComplianceGuard.isCompliant o d); cbn [negb];
         rewrite ?andb_false_r, ?andb_true_r; reflexivity);
    try reflexivity.
  apply resume_outcome.
Qed.


Lemma suppressed_guard_stops_counting_witness :
  let o := ComplianceGuard.mkOptions true true 0 in
  let ok := ComplianceGuard.mkDoc true true true in
  let away := ComplianceGuard.mkDoc true false true in
  let g := ComplianceGuard.run o (repeat ComplianceGuard.EscapeKey 5)
             (ComplianceGuard.mount o true ok) in
  let g' := ComplianceGuard.run o [ComplianceGuard.Blur away] g in
  ComplianceGuard.suppressedRef g' = true
  /\ ComplianceGuard.violations g' = ComplianceGuard.violations g
  /\ ComplianceGuard.onViolation g' = ComplianceGuard.onViolation g
  /\ ComplianceGuard.needsAttention
       (ComplianceGuard.step o (ComplianceGuard.Poll away) g) = false.
Proof.
  apply (suppressed_guard_stops_counting
           (ComplianceGuard.mkOptions true true 0)
           [ComplianceGuard.Blur (ComplianceGuard.mkDoc true false true)]
           (ComplianceGuard.Poll (ComplianceGuard.mkDoc true false true))
           (ComplianceGuard.run (ComplianceGuard.mkOptions true true 0)
              (repeat ComplianceGuard.EscapeKey 5)
              (ComplianceGuard.mount (ComplianceGuard.mkOptions true true 0)
                 true (ComplianceGuard.mkDoc true true true)))).
  reflexivity.
Defined.

(** Developer escape.  From a guard whose press counter is below five,
    [n] presses of Ctrl+Shift+E with no timer expiry in between end with
    the guard suppressed exactly when it already was or the counter plus
    [n] reaches five; in that case the overlay is down; the presses never
    change [violations], and the counter is below five again. *)
Theorem escape_presses_suppress_at_five
        (o : ComplianceGuard.Options) (n : nat) (g : ComplianceGuard.Guard) :
  (ComplianceGuard.escapeCount g < 5)%nat ->
  let g' := ComplianceGuard.run o (repeat ComplianceGuard.EscapeKey n) g in
  ComplianceGuard.suppressedRef g'
  = ComplianceGuard.suppressedRef g
    || (5 <=? ComplianceGuard.escapeCount g + n)%nat
  /\ ComplianceGuard.needsAttention g'
     = ComplianceGuard.needsAttention g
       && negb (5 <=? ComplianceGuard.escapeCount g + n)%nat
  /\ (ComplianceGuard.escapeCount g' < 5)%nat
  /\ ComplianceGuard.violations g' = ComplianceGuard.violations g.
Proof. intros C. now apply escape_presses. Qed.

Lemma escape_presses_suppress_at_five_witness :
  let o := ComplianceGuard.mkOptions true true 0 in
  let g := ComplianceGuard.mount o true (ComplianceGuard.mkDoc true false true) in
  let g' := ComplianceGuard.run o (repeat ComplianceGuard.EscapeKey 5) g in
  ComplianceGuard.suppressedRef g'
  = ComplianceGuard.suppressedRef g
    || (5 <=? ComplianceGuard.escapeCount g + 5)%nat
  /\ ComplianceGuard.needsAttention g'
     = ComplianceGuard.needsAttention g
       && negb (5 <=? ComplianceGuard.escapeCount g + 5)%nat
  /\ (ComplianceGuard.escapeCount g' < 5)%nat
  /\ ComplianceGuard.violations g' = ComplianceGuard.violations g.
Proof.
  apply (escape_presses_suppress_at_five
           (ComplianceGuard.mkOptions true true 0) 5
           (ComplianceGuard.mount (ComplianceGuard.mkOptions true true 0) true
              (ComplianceGuard.mkDoc true false true))).
  cbn. lia.
Defined.

(** Developer escape, interrupted.  On an unsuppressed guard, presses that
    leave the counter below five, then the expiry of the two-second timer,
    then fewer than five presses do not suppress the guard, however many
    presses that makes in all. *)
Theorem escape_timer_restarts_the_count
        (o : ComplianceGuard.Options) (a b : nat) (g : ComplianceGuard.Guard) :
  ComplianceGuard.suppressedRef g = false ->
  (ComplianceGuard.escapeCount g + a < 5)%nat ->
  (b < 5)%nat ->
  ComplianceGuard.suppressedRef
    (ComplianceGuard.run o
       (repeat ComplianceGuard.EscapeKey a
        ++ ComplianceGuard.EscapeTimeout
        :: repeat ComplianceGuard.EscapeKey b) g)
  = false.
Proof.
  intros S A B. rewrite run_app_guard, run_cons_guard.
  destruct (escape_presses o a g) as (S1 & _); [lia |].
  rewrite (proj2 (Nat.leb_gt _ _)), S in S1 by lia. cbn [orb] in S1.
  set (g1 := ComplianceGuard.run o (repeat ComplianceGuard.EscapeKey a) g) in *.
  cbn [ComplianceGuard.step].
  destruct (escape_presses o b (ComplianceGuard.escapeTimeout g1)) as (S2 & _);
    [cbn; lia |].
  rewrite S2. cbn [ComplianceGuard.escapeTimeout ComplianceGuard.suppressedRef
                   ComplianceGuard.escapeCount].
  rewrite S1, (proj2 (Nat.leb_gt _ _)) by lia. reflexivity.
Qed.

Lemma escape_timer_restarts_the_count_witness :
  let o := ComplianceGuard.mkOptions true true 0 in
  ComplianceGuard.suppressedRef
    (ComplianceGuard.run o
       (repeat ComplianceGuard.EscapeKey 4
        ++ ComplianceGuard.EscapeTimeout
        :: repeat ComplianceGuard.EscapeKey 4)
       (ComplianceGuard.mount o true (ComplianceGuard.mkDoc true true true)))
  = false.
Proof.
  apply (escape_timer_restarts_the_count
           (ComplianceGuard.mkOptions true true 0) 4 4
           (ComplianceGuard.mount (ComplianceGuard.mkOptions true true 0) true
              (ComplianceGuard.mkDoc true true true))).
  - reflexivity.
  - cbn. lia.
  - lia.
Defined.

(** ** The ban effects *)

Section Bans.
Import StudyApp.

Lemma step_ban ev a :
  let a' := step ev a in
  meta a' = meta a
  /\ (bannedForStrikeRef a = true -> bannedForStrikeRef a' = true)
  /\ (bannedForViolationsRef a = true -> bannedForViolationsRef a' = true)
  /\ banParticipant a'
     = (banParticipant a
        + (if negb (bannedForStrikeRef a) && bannedForStrikeRef a'
           then 1 else 0)
        + (if negb (bannedForViolationsRef a) && bannedForViolationsRef a'
           then 1 else 0))%nat.
Proof.
  destruct a as [m t bl bs bv n].
  destruct ev as [f | k]; cbv zeta;
    unfold step, strikeEffect, onViolation, violationsEffect;
    cbn [meta totalViolations blocked bannedForStrikeRef
         bannedForViolationsRef banParticipant].
  - destruct f, bs, bv, m; cbn; repeat split; auto; lia.
  - destruct (5 <? k)%nat, bs, bv, m; cbn; repeat split; auto; lia.
Qed.

Lemma report_bans ns :
  forall a,
  let a' := report ns a in
  bannedForViolationsRef a'
  = bannedForViolationsRef a
    || (meta a && existsb (fun n => (5 <? n)%nat) ns)
  /\ blocked a'
     = blocked a
       || (negb (bannedForViolationsRef a) && meta a
           && existsb (fun n => (5 <? n)%nat) ns)
  /\ meta a' = meta a.
Proof.
  induction ns as [| n ns IH]; intros a.
  - cbn. now rewrite !andb_false_r, !orb_false_r.
  - cbv zeta. unfold report. cbn [fold_left existsb].
    change (fold_left _ ns ?x) with (report ns x).
    destruct (IH (onViolation n a)) as (B & K & M).
    rewrite B, K, M. clear B K M IH.
    destruct a as [m t bl bs bv c].
    unfold onViolation, violationsEffect.
    cbn [meta totalViolations blocked bannedForStrikeRef
         bannedForViolationsRef banParticipant].
    destruct (5 <? n)%nat, bv, m, bl,
      (existsb (fun n0 => (5 <? n0)%nat) ns); cbn; repeat split.
Qed.

End Bans.

(** Whatever strikes and violation counts reach the two effects of
    [StudyApp], [banParticipant] is called once when the strike ban is
    first recorded and once when the violations ban is first recorded, and
    never otherwise: at most twice in the life of the component; a recorded
    ban is never withdrawn. *)
Theorem each_ban_reason_bans_once
        (evs : list StudyApp.event) (a : StudyApp.App) :
  let a' := StudyApp.run evs a in
  StudyApp.banParticipant a'
  = (StudyApp.banParticipant a
     + (if negb (StudyApp.bannedForStrikeRef a)
           && StudyApp.bannedForStrikeRef a' then 1 else 0)
     + (if negb (StudyApp.bannedForViolationsRef a)
           && StudyApp.bannedForViolationsRef a' then 1 else 0))%nat
  /\ (StudyApp.banParticipant a' <= StudyApp.banParticipant a + 2)%nat
  /\ (StudyApp.bannedForStrikeRef a = true ->
      StudyApp.bannedForStrikeRef a' = true)
  /\ (StudyApp.bannedForViolationsRef a = true ->
      StudyApp.bannedForViolationsRef a' = true).
Proof.
  cbv zeta.
  assert (StudyApp.banParticipant (StudyApp.run evs a)
          = (StudyApp.banParticipant a
             + (if negb (StudyApp.bannedForStrikeRef a)
                   && StudyApp.bannedForStrikeRef (StudyApp.run evs a)
                then 1 else 0)
             + (if negb (StudyApp.bannedForViolationsRef a)
                   && StudyApp.bannedForViolationsRef (StudyApp.run evs a)
                then 1 else 0))%nat
          /\ (StudyApp.bannedForStrikeRef a = true ->
              StudyApp.bannedForStrikeRef (StudyApp.run evs a) = true)
          /\ (StudyApp.bannedForViolationsRef a = true ->
              StudyApp.bannedForViolationsRef (StudyApp.run evs a) = true))
    as (E & KS & KV).
  { revert a. induction evs as [| ev evs IH]; intros a.
    - cbn. rewrite !andb_negb_l. repeat split; auto; lia.
    - unfold StudyApp.run. cbn [fold_left].
      change (fold_left _ evs ?x) with (StudyApp.run evs x).
      destruct (step_ban ev a) as (_ & S1 & V1 & B1).
      destruct (IH (StudyApp.step ev a)) as (B2 & S2 & V2).
      split; [| split; auto].
      rewrite B2, B1. clear B1 B2.
      destruct (StudyApp.bannedForStrikeRef a) eqn:X,
               (StudyApp.bannedForViolationsRef a) eqn:Y,
               (StudyApp.bannedForStrikeRef (StudyApp.step ev a)) eqn:X1,
               (StudyApp.bannedForViolationsRef (StudyApp.step ev a)) eqn:Y1;
        try (specialize (S1 eq_refl); discriminate S1);
        try (specialize (V1 eq_refl); discriminate V1);
        try rewrite (S2 eq_refl); try rewrite (V2 eq_refl);
        cbn [negb andb]; try lia;
        repeat match goal with
          | |- context [if ?c then _ else _] => destruct c
          end; lia. }
  split; [exact E |]. split; [| split; assumption]. rewrite E.
  repeat match goal with
    | |- context [if ?c then _ else _] => destruct c
    end; lia.
Qed.

(** The guard's counts and the ban, composed.  When the counts that a
    compliance guard reported over a run reach the app through
    [onViolation], the violations ban is recorded exactly when it already
    was, or the session meta is loaded and the guard flagged at least once
    and ended above five violations; the participant is then blocked
    unless the ban had been recorded before. *)
Theorem guard_reports_ban_above_five
        (o : ComplianceGuard.Options) (lock : bool)
        (d : ComplianceGuard.Document) (evs : list ComplianceGuard.event)
        (a : StudyApp.App) :
  let g := ComplianceGuard.run o evs (ComplianceGuard.mount o lock d) in
  let a' := StudyApp.report (ComplianceGuard.onViolation g) a in
  let crossed := (ComplianceGuard.initialViolations o
                    <? ComplianceGuard.violations g)%nat
                 && (5 <? ComplianceGuard.violations g)%nat in
  StudyApp.bannedForViolationsRef a'
  = StudyApp.bannedForViolationsRef a || (StudyApp.meta a && crossed)
  /\ StudyApp.blocked a'
     = StudyApp.blocked a
       || (negb (StudyApp.bannedForViolationsRef a) && StudyApp.meta a
           && crossed).
Proof.
  cbv zeta.
  set (g0 := ComplianceGuard.mount o lock d).
  assert (ComplianceGuard.violations g0 = ComplianceGuard.initialViolations o
          /\ ComplianceGuard.onViolation g0 = []) as (V0 & L0).
  { unfold g0, ComplianceGuard.mount, ComplianceGuard.requestWakeLock,
      ComplianceGuard.checkNow.
    destruct (ComplianceGuard.enableWakeLock o && lock); split; reflexivity. }
  rewrite (run_log o evs g0), (run_violations o evs g0), V0, L0.
  cbn [app].
  set (i := ComplianceGuard.initialViolations o).
  set (k := ComplianceGuard.flagged o evs g0).
  destruct (report_bans (seq (i + 1) k) a) as (B & K & _).
  rewrite B, K.
  assert (existsb (fun n => (5 <? n)%nat) (seq (i + 1) k)
          = (i <? i + k)%nat && (5 <? i + k)%nat) as X.
  { destruct ((i <? i + k)%nat && (5 <? i + k)%nat) eqn:Y.
    - apply andb_prop in Y as [Y1 Y2].
      apply Nat.ltb_lt in Y1. apply Nat.ltb_lt in Y2.
      apply existsb_exists. exists (i + k)%nat. split.
      + apply in_seq. lia.
      + apply Nat.ltb_lt. lia.
    - destruct (existsb _ _) eqn:Z; [| reflexivity].
      apply existsb_exists in Z as (n & I & L).
      apply in_seq in I. apply Nat.ltb_lt in L.
      apply andb_false_iff in Y as [Y | Y];
        [apply Nat.ltb_ge in Y | apply Nat.ltb_ge in Y]; lia. }
  rewrite X. split; reflexivity.
Qed.


(** ** Mounting the guard *)

(** Mounting the compliance guard never counts a violation: the count
    starts at [initialViolations] and [onViolation] has not been called,
    even when the document is not compliant; the overlay is up exactly in
    that case. *)
Theorem mount_shows_overlay_without_counting
        (o : ComplianceGuard.Options) (lock : bool)
        (d : ComplianceGuard.Document) :
  let g := ComplianceGuard.mount o lock d in
  ComplianceGuard.violations g = ComplianceGuard.initialViolations o
  /\ ComplianceGuard.onViolation g = []
  /\ ComplianceGuard.needsAttention g = negb (ComplianceGuard.isCompliant o d)
  /\ ComplianceGuard.suppressedRef g = false
  /\ ComplianceGuard.escapeCount g = 0%nat.
Proof.
  cbv zeta.
  unfold ComplianceGuard.mount, ComplianceGuard.requestWakeLock,
    ComplianceGuard.checkNow.
  destruct (ComplianceGuard.enableWakeLock o && lock); repeat split.
Qed.

(** ** Where signals come from *)

(** In either version a signal is only ever emitted by an animation frame
    of an enabled hook.  A nudge carries the time of its frame, whose
    score is below [nudgeThreshold] and which comes more than
    [nudgeCooldownMs] after the last nudge; the banner is raised on such a
    frame; a strike is emitted on a frame whose score is below
    [finalThreshold], on a hook that was armed with the hysteresis flag set
    before the frame. *)
Theorem signals_come_from_low_frames
        (refBased : bool) (o : AttnOpts) (ev : event) (h : Hook)
        (sg : signal) :
  In sg (snd (step (version refBased) o ev h)) ->
  exists now,
    ev = EvFrame now
    /\ enabled h = true
    /\ match sg with
       | SigNudge t =>
           t = now
           /\ decay o (now - lastActRef (refs h)) < nudgeThreshold o
           /\ nudgeCooldownMs o < now - lastNudgeRef (refs h)
       | SigFinalWarning =>
           decay o (now - lastActRef (refs h)) < nudgeThreshold o
           /\ nudgeCooldownMs o < now - lastNudgeRef (refs h)
       | SigStrike =>
           decay o (now - lastActRef (refs h)) < finalThreshold o
           /\ armedFinalRef (refs h) = true
           /\ hysteresisOkRef (refs h) = true
       end.
Proof.
  intros I. destruct ev; cbn [step snd] in I; try contradiction.
  destruct (enabled h) eqn:En; [| contradiction].
  exists now. split; [reflexivity |]. split; [reflexivity |].
  revert I. destruct refBased; version_simpl.
  - loop_cases; cbn [app In]; intros I;
      repeat match goal with
        | H : _ \/ _ |- _ => destruct H
        | H : False |- _ => contradiction
        end; subst; repeat split; try assumption; try discriminate;
      try congruence; try lra.
  - unfold StateVersion.loop. destruct (Rltb _ _);
      loop_cases; cbn [app In]; intros I;
      repeat match goal with
        | H : _ \/ _ |- _ => destruct H
        | H : False |- _ => contradiction
        end; subst; repeat split; try assumption; try discriminate;
      try congruence; try lra.
Qed.

Lemma signals_come_from_low_frames_witness :
  let o := StateVersion.defaults in
  let h := mount (version false) true 0 in
  exists now,
    EvFrame 100000 = EvFrame now
    /\ enabled h = true
    /\ (100000 = now
        /\ decay o (now - lastActRef (refs h)) < nudgeThreshold o
        /\ nudgeCooldownMs o < now - lastNudgeRef (refs h)).
Proof.
  apply (signals_come_from_low_frames
           false StateVersion.defaults (EvFrame 100000)
           (mount (version false) true 0) (SigNudge 100000)).
  destruct (state_frame_nudges 100000 (mount (version false) true 0))
    as (_ & O & _);
    [apply stale_session_mount | lra | cbn; lra |].
  rewrite O. left. reflexivity.
Defined.

(** ** Frames of the ref-based version, run forward *)

Lemma step_frame_enabled v o now h :
  enabled h = true -> step v o (EvFrame now) h = loopOf v o now h.
Proof. intros En. cbn [step]. now rewrite En. Qed.

Lemma ref_nudge_fires o now s h :
  finalStrike (render h) = false ->
  armedFinalRef (refs h) = false ->
  s < nudgeThreshold o ->
  (nudgesRef (refs h) < maxNudges o)%nat ->
  nudgeCooldownMs o < now - lastNudgeRef (refs h) ->
  RefVersion.nudge o now s h
  = if (maxNudges o <=? nudgesRef (refs h) + 1)%nat
    then (armFinal (RefVersion.emit now (nudgesRef (refs h) + 1) h),
          [SigNudge now; SigFinalWarning])
    else (RefVersion.emit now (nudgesRef (refs h) + 1) h, [SigNudge now]).
Proof.
  intros F A S N C. unfold RefVersion.nudge. cbv zeta.
  rewrite F, A, (proj2 (Rltb_true _ _) S), (proj2 (Nat.ltb_lt _ _) N).
  cbn [negb andb]. now rewrite (proj2 (Rgtb_true _ _) C).
Qed.

(** A frame of the ref-based version on which a nudge is due. *)
Lemma ref_frame_fires o now h :
  enabled h = true ->
  finalStrike (render h) = false ->
  armedFinalRef (refs h) = false ->
  decay o (now - lastActRef (refs h)) < nudgeThreshold o ->
  (nudgesRef (refs h) < maxNudges o)%nat ->
  nudgeCooldownMs o < now - lastNudgeRef (refs h) ->
  let r := step (version true) o (EvFrame now) h in
  existsb isFinalWarning (snd r) = (maxNudges o <=? nudgesRef (refs h) + 1)%nat
  /\ nudges (state (fst r)) = (nudgesRef (refs h) + 1)%nat
  /\ nudgesRef (refs (fst r)) = (nudgesRef (refs h) + 1)%nat
  /\ showNudge (state (fst r)) = true
  /\ lastNudgeRef (refs (fst r)) = now.
Proof.
  intros En F A S N C. cbv zeta. rewrite step_frame_enabled by assumption.
  version_simpl. unfold RefVersion.loop. cbv zeta.
  set (s := decay o (now - lastActRef (refs h))) in *.
  set (h0 := setWorstScore (fun prev => Rmin prev s) (setScore s h)).
  rewrite (ref_nudge_fires o now s h0)
    by (subst h0; hook_simpl; assumption).
  change (nudgesRef (refs h0)) with (nudgesRef (refs h)).
  destruct (maxNudges o <=? nudgesRef (refs h) + 1)%nat.
  - match goal with
    | |- context [hysteresis ?o ?s ?h] =>
        destruct (hysteresis_cases o s h) as [E | (_ & _ & E)]; rewrite E
    end;
    match goal with
    | |- context [strike ?o ?s ?h] =>
        destruct (strike_cases o s h) as [E1 | (_ & _ & _ & _ & E1)];
        rewrite E1
    end;
    subst h0; hook_simpl; cbn [app existsb isFinalWarning orb];
    repeat split.
  - rewrite hysteresis_unarmed, strike_unarmed
      by (subst h0; hook_simpl; assumption).
    subst h0. hook_simpl. cbn [app existsb isFinalWarning orb].
    repeat split.
Qed.

(** A frame of the ref-based version on an armed hook with the hysteresis
    flag set and a score below [finalThreshold]. *)
Lemma ref_frame_strikes o now h :
  enabled h = true ->
  finalStrike (render h) = false ->
  armedFinalRef (refs h) = true ->
  hysteresisOkRef (refs h) = true ->
  decay o (now - lastActRef (refs h)) < finalThreshold o ->
  let r := step (version true) o (EvFrame now) h in
  snd r = [SigStrike] /\ finalStrike (state (fst r)) = true.
Proof.
  intros En F A Hy S. cbv zeta. rewrite step_frame_enabled by assumption.
  version_simpl. unfold RefVersion.loop. cbv zeta.
  set (s := decay o (now - lastActRef (refs h))) in *.
  set (h0 := setWorstScore (fun prev => Rmin prev s) (setScore s h)).
  destruct (ref_nudge_cases o now s h0)
    as [E | (A0 & _)]; [| subst h0; hook_simpl; congruence].
  rewrite E.
  destruct (hysteresis_cases o s h0) as [E1 | (_ & G & _)]; [| lra].
  rewrite E1.
  rewrite (strike_fires o s h0) by (subst h0; hook_simpl; assumption).
  subst h0. hook_simpl. split; reflexivity.
Qed.

(** ** The arming frame *)

(** What a frame that raises the banner leaves behind, in either version:
    the hook is armed, the hysteresis flag is set exactly when the frame's
    own score is above [finalThreshold + 0.08], and the frame itself emits
    no strike and leaves [finalStrike] alone. *)
Lemma arming_frame refBased o now h :
  let r := loopOf (version refBased) o now h in
  existsb isFinalWarning (snd r) = true ->
  armedFinalRef (refs (fst r)) = true
  /\ hysteresisOkRef (refs (fst r))
     = Rgtb (decay o (now - lastActRef (refs h))) (finalThreshold o + 0.08)
  /\ existsb isStrike (snd r) = false
  /\ finalStrike (state (fst r)) = finalStrike (state h).
Proof.
  cbv zeta.
  assert (forall h0 s,
             s = decay o (now - lastActRef (refs h)) ->
             finalStrike (state h0) = finalStrike (state h) ->
             let h1 := hysteresis o s (armFinal h0) in
             forall out1,
             existsb isStrike out1 = false ->
             armedFinalRef (refs (fst (strike o s h1))) = true
             /\ hysteresisOkRef (refs (fst (strike o s h1)))
                = Rgtb s (finalThreshold o + 0.08)
             /\ existsb isStrike (out1 ++ snd (strike o s h1)) = false
             /\ finalStrike (state (fst (strike o s h1)))
                = finalStrike (state h)) as Arm.
  { intros h0 s _ Fs h1 out1 O. subst h1. unfold hysteresis.
    change (armedFinalRef (refs (armFinal h0))) with true. cbn [andb].
    destruct (Rgtb s (finalThreshold o + 0.08)) eqn:G.
    - apply Rgtb_true in G.
      destruct (strike_cases o s (setHysteresisOkRef true (armFinal h0)))
        as [E | (_ & _ & L & _)]; [| lra].
      rewrite E. hook_simpl. rewrite existsb_app, O. repeat split; assumption.
    - destruct (strike_cases o s (armFinal h0))
        as [E | (_ & Hy & _)]; [| hook_simpl; discriminate Hy].
      rewrite E. hook_simpl. rewrite existsb_app, O. repeat split; assumption. }
  destruct refBased; version_simpl.
  - unfold RefVersion.loop. cbv zeta.
    set (s := decay o (now - lastActRef (refs h))).
    set (h0 := setWorstScore (fun prev => Rmin prev s) (setScore s h)).
    destruct (ref_nudge_cases o now s h0)
      as [E | (_ & _ & _ & [(_ & E) | (_ & E)])]; rewrite E.
    + destruct (strike_cases o s (hysteresis o s h0))
        as [E1 | (_ & _ & _ & _ & E1)]; rewrite E1; cbn; discriminate.
    + match goal with
      | |- context [strike ?o ?s ?h] =>
          destruct (strike_cases o s h) as [E1 | (_ & _ & _ & _ & E1)];
          rewrite E1; cbn; discriminate
      end.
    + intros _.
      destruct (strike o s (hysteresis o s (armFinal _))) as [h3 out2] eqn:E3.
      match type of E3 with
      | strike _ _ (hysteresis _ _ (armFinal ?x)) = _ =>
          destruct (Arm x s eq_refl eq_refl [SigNudge now; SigFinalWarning]
                        eq_refl) as (A & B & C & D)
      end.
      rewrite E3 in A, B, C, D. cbn [fst snd] in *. auto.
  - unfold StateVersion.loop. cbv zeta.
    set (s := decay o (now - lastActRef (refs h))).
    set (h0 := if Rltb s (worstScore (render (setScore s h)))
               then setWorstScore (fun _ => s) (setScore s h)
               else setScore s h).
    assert (finalStrike (state h0) = finalStrike (state h)) as F0
      by (subst h0; destruct (Rltb _ _); reflexivity).
    destruct (state_nudge_cases o now s h0)
      as [E | (_ & _ & _ & _ & [(_ & E) | (_ & E)])]; rewrite E.
    + destruct (strike_cases o s (hysteresis o s h0))
        as [E1 | (_ & _ & _ & _ & E1)]; rewrite E1; cbn; discriminate.
    + match goal with
      | |- context [strike ?o ?s ?h] =>
          destruct (strike_cases o s h) as [E1 | (_ & _ & _ & _ & E1)];
          rewrite E1; cbn; discriminate
      end.
    + intros _.
      destruct (strike o s (hysteresis o s (armFinal _))) as [h3 out2] eqn:E3.
      match type of E3 with
      | strike _ _ (hysteresis _ _ (armFinal ?x)) = _ =>
          destruct (Arm x s eq_refl F0 [SigNudge now; SigFinalWarning]
                        eq_refl) as (A & B & C & D)
      end.
      rewrite E3 in A, B, C, D. cbn [fst snd] in *. auto.
Qed.

(** C2, as amended.  In either version, take a frame that arms the final
    warning (it raises the banner).  It leaves the hook armed and emits no
    strike itself, and it leaves the hysteresis flag set exactly when its
    own score is above [finalThreshold + 0.08].  If neither the arming
    frame nor any frame of the events that follow computes a score above
    [finalThreshold + 0.08], then whatever the dips below
    [finalThreshold], no strike is emitted and [finalStrike] stays
    false. *)
Theorem strike_needs_score_above_margin_since_arming
        (refBased : bool) (o : AttnOpts) (now : R) (h : Hook)
        (evs : list event) :
  let v := version refBased in
  let s := decay o (now - lastActRef (refs h)) in
  let h1 := fst (loopOf v o now h) in
  existsb isFinalWarning (snd (loopOf v o now h)) = true ->
  finalStrike (state h) = false ->
  armedFinalRef (refs h1) = true
  /\ hysteresisOkRef (refs h1) = Rgtb s (finalThreshold o + 0.08)
  /\ existsb isStrike (snd (loopOf v o now h)) = false
  /\ finalStrike (state h1) = false
  /\ (s <= finalThreshold o + 0.08 ->
      calm v o evs h1 ->
      existsb isStrike (snd (run v o evs h1)) = false
      /\ finalStrike (state (fst (run v o evs h1))) = false).
Proof.
  intros v s h1 W F.
  destruct (arming_frame refBased o now h W) as (A & B & C & D).
  fold v in A, B, C, D. fold h1 in A, B, D. fold s in B.
  split; [exact A |]. split; [exact B |]. split; [exact C |].
  split; [congruence |].
  intros S Ca.
  assert (unready h1) as U
    by (unfold unready; rewrite A, B; now apply Rgtb_false).
  destruct (calm_run refBased o evs h1 U Ca) as (_ & K1 & K2).
  split; [exact K1 | apply K2; congruence].
Qed.

Lemma decay_at_floor_100000 (now : R) :
  100000 <= now ->
  decay (mkOpts 5000 15000 0.5 0.2 1 0.05 15000) (now - 0) <= 0.05.
Proof.
  intros N. eapply Rle_trans.
  - apply (decay_after_half_lives _ 5); cbn [halfLifeMs graceMs INR]; lra.
  - cbn [minScore pow]. apply Rmax_lub; lra.
Qed.

(** One nudge allowed: the frame at 100 s raises it and arms the final
    warning at the floor score, which leaves the hysteresis flag cleared;
    the frames at 101 s and 102 s are dips below [finalThreshold] with no
    score above the margin since the arming, and do not strike. *)
Lemma strike_needs_score_above_margin_since_arming_witness :
  let v := version true in
  let o := mkOpts 5000 15000 0.5 0.2 1 0.05 15000 in
  let h := mount v true 0 in
  let h1 := fst (loopOf v o 100000 h) in
  let evs := [EvFrame 101000; EvFrame 102000] in
  armedFinalRef (refs h1) = true
  /\ hysteresisOkRef (refs h1) = false
  /\ existsb isStrike (snd (run v o evs h1)) = false
  /\ finalStrike (state (fst (run v o evs h1))) = false.
Proof.
  cbv zeta.
  set (o := mkOpts 5000 15000 0.5 0.2 1 0.05 15000).
  set (h := mount (version true) true 0).
  assert (decay o (100000 - lastActRef (refs h)) <= 0.05) as S0
    by (apply decay_at_floor_100000; lra).
  destruct (strike_needs_score_above_margin_since_arming
              true o 100000 h [EvFrame 101000; EvFrame 102000])
    as (A & B & _ & _ & K).
  - assert (decay o (100000 - lastActRef (refs h)) < nudgeThreshold o) as S
      by (change (nudgeThreshold o) with 0.5; lra).
    assert (nudgeCooldownMs o < 100000 - lastNudgeRef (refs h)) as C
      by (change (15000 < 100000 - 0); lra).
    assert (nudgesRef (refs h) < maxNudges o)%nat as N by (cbn; lia).
    destruct (ref_frame_fires o 100000 h eq_refl eq_refl eq_refl S N C)
      as (W & _).
    rewrite step_frame_enabled in W by reflexivity. exact W.
  - reflexivity.
  - assert (finalThreshold o + 0.08 = 0.28) as M
      by (unfold o; cbn [finalThreshold]; lra).
    destruct K as (K1 & K2); [rewrite M; lra | |].
    + destruct (loop_keeps true o 100000 h) as (L & _ & En).
      cbn [calm frameTime]. rewrite L, M.
      change (lastActRef (refs h)) with 0.
      assert (decay o (101000 - 0) <= 0.05) as S2
        by (apply decay_at_floor_100000; lra).
      split; [lra |].
      rewrite step_frame_enabled by (rewrite En; reflexivity).
      destruct (loop_keeps true o 101000
                  (fst (loopOf (version true) o 100000 h))) as (L1 & _).
      rewrite L1, L. change (lastActRef (refs h)) with 0.
      split; [| exact I].
      assert (decay o (102000 - 0) <= 0.05) as S3
        by (apply decay_at_floor_100000; lra).
      lra.
    + repeat split; try assumption.
      rewrite B. apply Rgtb_false. rewrite M. lra.
Defined.

Lemma decay_one_and_a_half_half_lives :
  0.35 < decay (mkOpts 5000 15000 0.5 0.2 1 0.05 15000) (27500 - 0) < 0.36.
Proof.
  rewrite decay_past_grace by (cbn; lra).
  cbn [minScore graceMs halfLifeMs].
  set (x := exp (- ln 2 * (27500 - 0 - 5000) / 15000)).
  assert (0 < x) as P by apply exp_pos.
  assert (x * x = / 8) as Q.
  { unfold x. rewrite <- exp_plus.
    replace (- ln 2 * (27500 - 0 - 5000) / 15000
             + - ln 2 * (27500 - 0 - 5000) / 15000)
      with (- ln 2 * INR 3) by (cbn [INR]; field).
    rewrite exp_half_lives. cbn [pow]. field. }
  assert (0.35 < x < 0.36) as B by (split; nra).
  rewrite Rmax_right by lra. exact B.
Qed.

(** C2 as stated fails when the arming frame's own score is above
    [finalThreshold + 0.08].  Ref-based version, default thresholds, one
    nudge allowed, mounted at time 0 and left idle: the frame at 27.5 s
    scores about 0.354 (below [nudgeThreshold = 0.5], above
    [0.2 + 0.08]), raises the nudge and arms the final warning; the next
    frame, at 80 s, scores at most 0.05: the score has only fallen since
    the arming, and the strike is set. *)
Lemma strike_without_recovery_after_arming :
  let v := version true in
  let o := mkOpts 5000 15000 0.5 0.2 1 0.05 15000 in
  let r1 := step v o (EvFrame 27500) (mount v true 0) in
  let r2 := step v o (EvFrame 80000) (fst r1) in
  existsb isFinalWarning (snd r1) = true
  /\ armedFinalRef (refs (fst r1)) = true
  /\ finalStrike (state (fst r1)) = false
  /\ finalThreshold o + 0.08 < score (state (fst r1)) < nudgeThreshold o
  /\ score (state (fst r2)) < score (state (fst r1))
  /\ score (state (fst r2)) < finalThreshold o
  /\ snd r2 = [SigStrike]
  /\ finalStrike (state (fst r2)) = true.
Proof.
  cbv zeta.
  set (o := mkOpts 5000 15000 0.5 0.2 1 0.05 15000).
  set (h := mount (version true) true 0).
  pose proof decay_one_and_a_half_half_lives as D1. fold o in D1.
  assert (decay o (80000 - 0) <= 0.05) as D2.
  { eapply Rle_trans.
    - apply (decay_after_half_lives o 5); unfold o;
        cbn [halfLifeMs graceMs INR]; lra.
    - unfold o. cbn [minScore pow]. apply Rmax_lub; lra. }
  assert (decay o (27500 - lastActRef (refs h)) < nudgeThreshold o) as S
    by (change (decay o (27500 - 0) < 0.5); lra).
  assert (nudgeCooldownMs o < 27500 - lastNudgeRef (refs h)) as C
    by (change (15000 < 27500 - 0); lra).
  assert (nudgesRef (refs h) < maxNudges o)%nat as N by (cbn; lia).
  destruct (ref_frame_fires o 27500 h eq_refl eq_refl eq_refl S N C)
    as (W & _).
  change (maxNudges o <=? nudgesRef (refs h) + 1)%nat with true in W.
  rewrite step_frame_enabled in * by reflexivity.
  destruct (arming_frame true o 27500 h W) as (A & B & _ & F).
  destruct (loop_keeps true o 27500 h) as (L & Re & En).
  pose proof (ref_loop_score o 27500 h) as Sc1.
  change (loopOf (version true) o 27500 h)
    with (RefVersion.loop o 27500 h) in *.
  set (h1 := fst (RefVersion.loop o 27500 h)) in *.
  change (lastActRef (refs h)) with 0 in *.
  assert (hysteresisOkRef (refs h1) = true) as Hy.
  { rewrite B. apply Rgtb_true. change (finalThreshold o) with 0.2. lra. }
  assert (enabled h1 = true) as En1 by (rewrite En; reflexivity).
  assert (finalStrike (render h1) = false) as Re1
    by (rewrite Re; reflexivity).
  assert (decay o (80000 - lastActRef (refs h1)) < finalThreshold o) as S2
    by (rewrite L; change (finalThreshold o) with 0.2; lra).
  destruct (ref_frame_strikes o 80000 h1 En1 Re1 A Hy S2) as (O2 & F2).
  rewrite step_frame_enabled in * by assumption.
  pose proof (ref_loop_score o 80000 h1) as Sc2. rewrite L in Sc2.
  change (loopOf (version true) o 80000 h1)
    with (RefVersion.loop o 80000 h1) in *.
  rewrite Sc1, Sc2.
  assert (finalThreshold o = 0.2 /\ nudgeThreshold o = 0.5) as (T1 & T2)
    by (split; reflexivity).
  rewrite T1, T2.
  repeat split; try assumption; try lra;
    try (rewrite F; reflexivity).
Qed.

(** ** A hook that has something to reset *)

(** The ref-based version, mounted enabled at time 0 with the default
    options, after the frame at 100 s: a nudge has been raised and
    counted, the toast is up and the score is at the floor. *)
Lemma disabling_resets_ref_version_only_witness :
  let o := RefVersion.defaults in
  let h := fst (step (version true) o (EvFrame 100000)
                     (mount (version true) true 0)) in
  let h1 := fst (step (version true) o (EvEnabled false) h) in
  let h2 := fst (step (version false) o (EvEnabled false) h) in
  (nudges (state h) = 1%nat
   /\ nudgesRef (refs h) = 1%nat
   /\ showNudge (state h) = true
   /\ lastNudgeRef (refs h) = 100000
   /\ score (state h) <= 0.05)
  /\ (state h1 = initialState
      /\ nudgesRef (refs h1) = 0%nat
      /\ armedFinalRef (refs h1) = false
      /\ hysteresisOkRef (refs h1) = true
      /\ lastNudgeRef (refs h1) = 0
      /\ enabled h1 = false)
  /\ (state h2 = state (setShowNudge false h)
      /\ enabled h2 = false).
Proof.
  cbv zeta.
  set (o := RefVersion.defaults).
  set (h0 := mount (version true) true 0).
  assert (decay o (100000 - lastActRef (refs h0)) <= 0.05) as S0.
  { change (lastActRef (refs h0)) with 0. eapply Rle_trans.
    - apply (decay_after_half_lives o 5); unfold o;
        cbn [RefVersion.defaults halfLifeMs graceMs INR]; lra.
    - unfold o. cbn [RefVersion.defaults minScore pow].
      apply Rmax_lub; lra. }
  assert (decay o (100000 - lastActRef (refs h0)) < nudgeThreshold o) as S
    by (change (nudgeThreshold o) with 0.5; lra).
  assert (nudgeCooldownMs o < 100000 - lastNudgeRef (refs h0)) as C
    by (change (15000 < 100000 - 0); lra).
  assert (nudgesRef (refs h0) < maxNudges o)%nat as N0 by (cbn; lia).
  destruct (ref_frame_fires o 100000 h0 eq_refl eq_refl eq_refl S N0 C)
    as (_ & N & NR & SN & LN).
  pose proof (ref_loop_score o 100000 h0) as Sc.
  destruct (loop_keeps true o 100000 h0) as (_ & _ & En).
  rewrite step_frame_enabled in * by reflexivity.
  change (loopOf (version true) o 100000 h0)
    with (RefVersion.loop o 100000 h0) in *.
  set (h := fst (RefVersion.loop o 100000 h0)) in *.
  split; [| apply (disabling_resets_ref_version_only o h);
            rewrite En; reflexivity].
  rewrite N, NR, SN, LN, Sc. repeat split. exact S0.
Defined.
